(** * Pacman repository policy layer: a shallow embedding of
      [builder/component/pacman.py] and the properties that hold of it.

    The Python methods of class [Pacman] are rendered as functions in a
    state-and-exception monad over the part of the process state they touch
    (the repository registry, the cache list, the file system and the log of
    external commands).  Library calls ([str] methods, [os.path], [shutil],
    [list.sort]) are modelled next to the code that uses them. *)

From Stdlib Require Import String Ascii ZArith Bool Lia.
From stdpp Require Import gmap strings list fin_maps sorting pretty.

(** String concatenation computes on its first argument in the proofs below. *)
#[local] Arguments String.append !_ _ / : simpl nomatch.

Local Open Scope string_scope.
Local Open Scope list_scope.
Local Open Scope Z_scope.

(** ** Python string primitives used by the source

    A string is its sequence of bytes. *)

Module Py.

(** [s.startswith(p)] *)
Fixpoint startswith (s p : string) {struct p} : bool :=
  match p with
  | EmptyString => true
  | String c p' =>
      match s with
      | EmptyString => false
      | String d s' => if Ascii.eqb d c then startswith s' p' else false
      end
  end.

(** [s[n:]] *)
Fixpoint drop (n : nat) (s : string) : string :=
  match n, s with
  | O, _ => s
  | S _, EmptyString => EmptyString
  | S n', String _ s' => drop n' s'
  end.

(** [s[:n]] for a non-negative [n] *)
Fixpoint take (n : nat) (s : string) : string :=
  match n, s with
  | O, _ => EmptyString
  | S _, EmptyString => EmptyString
  | S n', String c s' => String c (take n' s')
  end.

(** [s[:-k]] for a positive [k]: everything but the last [k] characters,
    the empty string when [s] is shorter than [k]. *)
Definition drop_last (k : nat) (s : string) : string :=
  take (String.length s - k) s.

(** [s.endswith(suf)] *)
Definition endswith (s suf : string) : bool :=
  (String.length suf <=? String.length s)%nat &&
  String.eqb (drop (String.length s - String.length suf) s) suf.

(** [sub in s] *)
Fixpoint contains (sub s : string) : bool :=
  startswith s sub ||
  match s with
  | EmptyString => false
  | String _ s' => contains sub s'
  end.

(** [s.split(c)] for a one-character separator *)
Fixpoint split (c : ascii) (s : string) : list string :=
  match s with
  | EmptyString => [EmptyString]
  | String d s' =>
      if Ascii.eqb d c then EmptyString :: split c s'
      else match split c s' with
           | w :: ws => String d w :: ws
           | [] => [String d EmptyString]
           end
  end.

(** [str(x)] of an attribute that may hold [None], as an f-string prints it *)
Definition fmt (o : option string) : string :=
  match o with
  | Some s => s
  | None => "None"
  end.

(** [list(s)]: iterating a string yields its one-character substrings *)
Fixpoint chars (s : string) : list string :=
  match s with
  | EmptyString => []
  | String c s' => String c EmptyString :: chars s'
  end.

(** [list.sort(key=key)] with integer keys.  Python guarantees that the
    sort is stable; [sort_by] is the insertion sort with that property, and
    [sort_by_unique] below shows that the result of a stable sort is
    determined by that guarantee alone. *)
Section Sort.
Context {A : Type} (key : A → Z).

Fixpoint insert_by (x : A) (l : list A) : list A :=
  match l with
  | [] => [x]
  | y :: l' => if (key x <=? key y) then x :: y :: l' else y :: insert_by x l'
  end.

Fixpoint sort_by (l : list A) : list A :=
  match l with
  | [] => []
  | x :: l' => insert_by x (sort_by l')
  end.
End Sort.

(** [os.path.join(a, b)] of [posixpath] *)
Definition path_join (a b : string) : string :=
  if startswith b "/" then b
  else if String.eqb a "" || endswith a "/" then a +:+ b
  else a +:+ "/" +:+ b.

End Py.

(** ** Exceptions and the monad of the methods *)

Inductive exn : Type :=
  | ArchBuilderConfigError (msg : string)
  | KeyError (key : string)
  | RuntimeError (msg : string)
  | ValueError (msg : string)
  | OSError (msg : string).

Inductive result (A : Type) : Type :=
  | Ok (a : A)
  | Raise (e : exn).
Arguments Ok {A} a.
Arguments Raise {A} e.

(** ** Repository model *)

Module PacmanRepoServer.
Record t : Type := mk {
  url : option string;
  name : option string;
  mirror : bool;
}.

(** [PacmanRepoServer(name, url, mirror)]: an argument that is [None]
    leaves the class default ([None], [None], [False]) in place. *)
Definition init (name url : option string) (mirror : option bool) : t :=
  {| url := url; name := name; mirror := default false mirror |}.
End PacmanRepoServer.

Module PacmanRepo.
Record t : Type := mk {
  name : option string;
  priority : Z;
  servers : list PacmanRepoServer.t;
  mirrorlist : option string;
  publickey : option string;
  keyid : option string;
}.

(** [PacmanRepo(name=name)] *)
Definition init (name : option string) : t :=
  {| name := name; priority := 10000; servers := [];
     mirrorlist := None; publickey := None; keyid := None |}.

Definition set_priority (p : Z) (r : t) : t :=
  {| name := name r; priority := p; servers := servers r;
     mirrorlist := mirrorlist r; publickey := publickey r; keyid := keyid r |}.

Definition set_mirrorlist (m : option string) (r : t) : t :=
  {| name := name r; priority := priority r; servers := servers r;
     mirrorlist := m; publickey := publickey r; keyid := keyid r |}.

Definition set_publickey (k : option string) (r : t) : t :=
  {| name := name r; priority := priority r; servers := servers r;
     mirrorlist := mirrorlist r; publickey := k; keyid := keyid r |}.

Definition set_keyid (k : option string) (r : t) : t :=
  {| name := name r; priority := priority r; servers := servers r;
     mirrorlist := mirrorlist r; publickey := publickey r; keyid := k |}.

(** [repo.add_server(name, url, mirror)] *)
Definition add_server (nm url : option string) (mirror : option bool) (r : t) : t :=
  {| name := name r; priority := priority r;
     servers := servers r ++ [PacmanRepoServer.init nm url mirror];
     mirrorlist := mirrorlist r; publickey := publickey r; keyid := keyid r |}.
End PacmanRepo.

(** ** Configuration input

    The raw configuration is a mapping; [key in mapping] is modelled by the
    field being [Some], and a key that is present carries a value of the type
    the source expects for it. *)

(** One entry of [config["repo"]]. *)
Record RepoDecl : Type := {
  r_name : option string;
  r_priority : option Z;
  r_mirrorlist : option string;
  r_publickey : option string;
  r_keyid : option string;
  r_server : option string;
  r_servers : option (list string);
}.

(** One entry of a mirror's ["repos"] list. *)
Record MirrorMap : Type := {
  m_original : option string;
  m_mirror : option string;
}.

(** One entry of the top-level ["mirrors"] list. *)
Record MirrorDecl : Type := {
  mr_name : option string;
  mr_repos : option (list MirrorMap);
}.

(** ** Process state *)

(** A file-system node.  Paths are the strings the program passes to the
    operating system; a directory node stands for itself only (parents are
    not tracked). *)
Inductive node : Type :=
  | Dir
  | File (data : string) (mode uid gid : Z).

Global Instance node_eq_dec : EqDecision node.
Proof. solve_decision. Defined.

(** An entry of a package archive as [libarchive] yields it. *)
Record ArchiveEntry : Type := {
  pathname : string;
  blocks : list string;
  e_mode : Z;
  e_uid : Z;
  e_gid : Z;
}.

(** The attributes of a [Pacman] object that its methods only read. *)
Record Pacman : Type := {
  gpgcheck : bool;            (* ctx.gpgcheck *)
  tgt_arch : string;          (* ctx.tgt_arch *)
  work : string;              (* ctx.work *)
  root : string;              (* self.root *)
  gpgdir : string;            (* handle.gpgdir *)
  logfile : string;           (* handle.logfile *)
  config_repo : option (list RepoDecl);  (* self.config["repo"], if present *)
  mirrors : list MirrorDecl;  (* ctx.get("mirrors", []) *)
}.

(** What the methods mutate: [self.repos], [self.caches], the file system,
    and the commands handed to [ctx.run_external], oldest first. *)
Record State : Type := {
  repos : list PacmanRepo.t;
  caches : list string;
  fs : gmap string node;
  calls : list (list string);
}.

Definition set_repos (rs : list PacmanRepo.t) (st : State) : State :=
  {| repos := rs; caches := caches st; fs := fs st; calls := calls st |}.

Definition set_fs (m : gmap string node) (st : State) : State :=
  {| repos := repos st; caches := caches st; fs := m; calls := calls st |}.

Definition add_call (cmds : list string) (st : State) : State :=
  {| repos := repos st; caches := caches st; fs := fs st;
     calls := calls st ++ [cmds] |}.

(** A method either returns or raises, and leaves a state behind in both
    cases. *)
Definition M (A : Type) : Type := State → result A * State.

Definition ret {A} (a : A) : M A := λ st, (Ok a, st).
Definition raise {A} (e : exn) : M A := λ st, (Raise e, st).
Definition bind {A B} (c : M A) (k : A → M B) : M B :=
  λ st, match c st with
        | (Ok a, st') => k a st'
        | (Raise e, st') => (Raise e, st')
        end.
Definition lift {A} (r : result A) : M A := λ st, (r, st).
Definition get : M State := λ st, (Ok st, st).

Notation "'let!' x := c 'in' k" := (bind c (λ x, k))
  (at level 10, x name, c at level 100, k at level 200, only parsing).
Notation "'do!' c 'in' k" := (bind c (λ _, k))
  (at level 10, c at level 100, k at level 200, only parsing).

(** [for x in xs: body(x)] *)
Fixpoint for_each {A} (xs : list A) (body : A → M unit) : M unit :=
  match xs with
  | [] => ret tt
  | x :: xs' => do! body x in for_each xs' body
  end.

(** The same monad without state, for the code that only computes. *)
Global Instance result_ret : MRet result := λ A a, Ok a.
Global Instance result_bind : MBind result := λ A B k r,
  match r with
  | Ok a => k a
  | Raise e => Raise e
  end.

(** [for x in xs: acc = body(acc, x)], stopping at the first exception *)
Fixpoint fold_result {A B} (body : B → A → result B) (acc : B) (xs : list A)
  : result B :=
  match xs with
  | [] => Ok acc
  | x :: xs' => acc' ← body acc x; fold_result body acc' xs'
  end.

(** [[f(x) for x in xs]], stopping at the first exception *)
Fixpoint map_result {A B} (f : A → result B) (xs : list A) : result (list B) :=
  match xs with
  | [] => Ok []
  | x :: xs' => y ← f x; ys ← map_result f xs'; Ok (y :: ys)
  end.

(** ** External collaborators

    Code outside [pacman.py] that the methods call: the template resolver of
    [builder.lib.subscript], the [pyalpm] database engine, the [libarchive]
    reader, the operating system and the external command runner.  They are
    arbitrary; every theorem holds for all of them. *)
Class Collaborators : Type := {
  (** [resolve_simple_values(template, {"arch": arch, "repo": repo})] *)
  resolve_simple_values : string → string → string → result string;
  (** [pyalpm.Package] and the attributes read here *)
  Package : Type;
  pkg_name : Package → string;
  pkg_filename : Package → string;
  (** [pyalpm.DB], [db.get_pkg(name)], [pyalpm.find_grp_pkgs(dbs, name)],
      [handle.load_pkg(path)], [handle.get_localdb()] *)
  DB : Type;
  get_pkg : DB → string → option Package;
  find_grp_pkgs : list DB → string → list Package;
  load_pkg : string → option Package;
  get_localdb : DB;
  (** [libarchive.file_reader(path)] on a file with the given content; a
      content that is no archive makes it raise *)
  file_reader : string → result (list ArchiveEntry);
  (** whether the operating system lets the process change the file system
      at a path: unlink or remove what is there, create a directory, create
      or truncate a file, write it and set its mode and owner *)
  os_permits : gmap string node → string → bool;
  (** mode and owner of a file the process creates without setting them *)
  new_mode : Z;
  new_uid : Z;
  new_gid : Z;
  (** exit status of [ctx.run_external(cmds)]; what the command does to the
      file system is outside the model, the command itself is recorded *)
  exit_status : gmap string node → list string → Z;
}.

(** ** The methods of [Pacman] *)

Section Methods.
Context `{Collaborators}.

(** The line terminator the source writes as a backslash-n escape. *)
Definition nl : string := String "010"%char EmptyString.

(** *** File-system primitives *)

(** [os.path.exists(p)] *)
Definition os_path_exists (m : gmap string node) (p : string) : bool :=
  bool_decide (is_Some (m !! p)).

(** [p] lies strictly below directory [dir], as path strings. *)
Definition under (dir p : string) : bool := Py.startswith p (dir +:+ "/").

(** [os.remove(p)]: unlinks a file, raises on a directory or a missing path. *)
Definition os_remove (p : string) : M unit := λ st,
  match fs st !! p with
  | Some (File _ _ _ _) =>
      if os_permits (fs st) p then (Ok tt, set_fs (delete p (fs st)) st)
      else (Raise (OSError p), st)
  | _ => (Raise (OSError p), st)
  end.

(** The file system without the directory [p] and everything below it. *)
Definition remove_tree (p : string) (m : gmap string node) : gmap string node :=
  filter (λ kv, kv.1 ≠ p ∧ under p kv.1 = false) m.

(** [shutil.rmtree(p)]: removes a directory and everything below it, raises
    when [p] is not a directory. *)
Definition rmtree (p : string) : M unit := λ st,
  match fs st !! p with
  | Some Dir =>
      if os_permits (fs st) p
      then (Ok tt, set_fs (remove_tree p (fs st)) st)
      else (Raise (OSError p), st)
  | _ => (Raise (OSError p), st)
  end.

(** [os.makedirs(p, mode=0o755)]: raises when [p] exists already. *)
Definition makedirs (p : string) : M unit := λ st,
  match fs st !! p with
  | None =>
      if os_permits (fs st) p then (Ok tt, set_fs (<[p := Dir]> (fs st)) st)
      else (Raise (OSError p), st)
  | Some _ => (Raise (OSError p), st)
  end.

(** [with open(p, "w") as f: ...]: the file at [p] is created or replaced by
    [f]; raises on a directory. *)
Definition write_file (p : string) (f : node) : M unit := λ st,
  match fs st !! p with
  | Some Dir => (Raise (OSError p), st)
  | _ =>
      if os_permits (fs st) p then (Ok tt, set_fs (<[p := f]> (fs st)) st)
      else (Raise (OSError p), st)
  end.

(** [ctx.run_external(cmds)] *)
Definition run_external (cmds : list string) : M Z := λ st,
  (Ok (exit_status (fs st) cmds), add_call cmds st).

(** *** Config renderer *)

(** Body of the inner loop of [append_repos], for one server. *)
Definition append_server (lines : list string) (server : PacmanRepoServer.t)
  : list string :=
  let lines :=
    if PacmanRepoServer.mirror server
    then lines ++ ["# Mirror " +:+ Py.fmt (PacmanRepoServer.name server) +:+ nl]
    else lines ++ ["# Original Repo" +:+ nl] in
  lines ++ ["Server = " +:+ Py.fmt (PacmanRepoServer.url server) +:+ nl].

(** Body of the outer loop of [append_repos], for one repository. *)
Definition append_repo (rootfs : bool) (lines : list string) (repo : PacmanRepo.t)
  : list string :=
  let lines := lines ++ ["[" +:+ Py.fmt (PacmanRepo.name repo) +:+ "]" +:+ nl] in
  if rootfs && bool_decide (PacmanRepo.mirrorlist repo ≠ None)
  then lines ++ ["Include = /etc/pacman.d/" +:+ Py.fmt (PacmanRepo.name repo)
                 +:+ "-mirrorlist" +:+ nl]
  else foldl append_server lines (PacmanRepo.servers repo).

(** [Pacman.append_repos(lines, rootfs)]: the list [lines] after the call. *)
Definition append_repos (st : State) (lines : list string) (rootfs : bool)
  : list string :=
  foldl (append_repo rootfs) lines (repos st).

(** [Pacman.append_config(lines)]: the list [lines] after the call. *)
Definition append_config (self : Pacman) (st : State) (lines : list string)
  : list string :=
  let siglevel := if gpgcheck self then "Required DatabaseOptional" else "Never" in
  let lines := lines ++ ["[options]" +:+ nl] in
  let lines := foldl (λ lines cache, lines ++ ["CacheDir = " +:+ cache +:+ nl])
                     lines (caches st) in
  let lines := lines ++ ["RootDir = " +:+ root self +:+ nl] in
  let lines := lines ++ ["GPGDir = " +:+ gpgdir self +:+ nl] in
  let lines := lines ++ ["LogFile = " +:+ logfile self +:+ nl] in
  let lines := lines ++ ["HoldPkg = pacman glibc" +:+ nl] in
  let lines := lines ++ ["Architecture = " +:+ tgt_arch self +:+ nl] in
  let lines := lines ++ ["UseSyslog" +:+ nl] in
  let lines := lines ++ ["Color" +:+ nl] in
  let lines := lines ++ ["CheckSpace" +:+ nl] in
  let lines := lines ++ ["VerbosePkgLists" +:+ nl] in
  let lines := lines ++ ["ParallelDownloads = 5" +:+ nl] in
  let lines := lines ++ ["SigLevel = " +:+ siglevel +:+ nl] in
  let lines := lines ++ ["LocalFileSigLevel = Optional" +:+ nl] in
  append_repos st lines false.

(** [Pacman.init_config()] *)
Definition init_config (self : Pacman) : M unit :=
  let config := Py.path_join (work self) "pacman.conf" in
  let! st := get in
  do! (if os_path_exists (fs st) config then os_remove config else ret tt) in
  let! st := get in
  let lines := append_config self st [] in
  write_file config (File (String.concat "" lines) new_mode new_uid new_gid).

(** *** Key management commands *)

(** [Pacman.pacman_key(args)] *)
Definition pacman_key (self : Pacman) (args : list string) : M unit :=
  if negb (gpgcheck self) then raise (RuntimeError "GPG check disabled") else
  let keyring := Py.path_join (root self) "etc/pacman.d/gnupg" in
  let config := Py.path_join (work self) "pacman.conf" in
  let cmds := ["pacman-key"] in
  let cmds := cmds ++ ["--gpgdir=" +:+ keyring] in
  let cmds := cmds ++ ["--config=" +:+ config] in
  let cmds := cmds ++ args in
  let! r := run_external cmds in
  if bool_decide (r ≠ 0)
  then raise (OSError ("pacman-key failed with " +:+ pretty r))
  else ret tt.

(** [Pacman.pouplate_keys(names, folder)] called with a list of names and a
    folder string, as [trust_keyring_pkg] does. *)
Definition pouplate_keys (self : Pacman) (names : list string) (folder : string)
  : M unit :=
  let args := ["--populate"] in
  let args := if negb (String.eqb folder "")
              then args ++ ["--populate-from"; folder] else args in
  let args := args ++ names in
  pacman_key self args.

(** *** Repository registry and mirror resolution *)

(** [Pacman.add_repo(repo)].  A [PacmanRepo] instance is truthy, a name is
    falsy when it is [None] or empty. *)
Definition add_repo (repo : PacmanRepo.t) : M unit := λ st,
  if bool_decide (PacmanRepo.name repo = None ∨ PacmanRepo.name repo = Some "")
     || (length (PacmanRepo.servers repo) <=? 0)%nat
  then (Raise (ArchBuilderConfigError "bad repo"), st)
  else (Ok tt, set_repos (Py.sort_by PacmanRepo.priority (repos st ++ [repo])) st).

(** [init_repos], lines 328-335: the configured original URL templates. *)
Definition init_repos_servers (repo : RepoDecl) : result (list string) :=
  let servers := [] in
  let servers := match r_server repo with
                 | Some s => servers ++ [s]
                 | None => servers
                 end in
  servers ← match r_servers repo with
            | Some _ =>
                (* servers.extend(repo["server"]) *)
                match r_server repo with
                | Some s => Ok (servers ++ Py.chars s)
                | None => Raise (KeyError "server")
                end
            | None => Ok servers
            end;
  if (length servers <=? 0)%nat
  then Raise (ArchBuilderConfigError "no any original repo url found")
  else Ok servers.

(** [init_repos], lines 350-363: one [{original, mirror}] pair of a mirror
    against every original URL. *)
Definition init_repos_mapping (mname : string) (originals : list string)
    (pacman_repo : PacmanRepo.t) (repo : MirrorMap) : result PacmanRepo.t :=
  match m_original repo with
  | None => Raise (ArchBuilderConfigError "original url not set")
  | Some repo_original =>
      match m_mirror repo with
      | None => Raise (ArchBuilderConfigError "mirror url not set")
      | Some repo_mirror =>
          Ok (foldl (λ pacman_repo original,
                if Py.startswith original repo_original then
                  let path := Py.drop (String.length repo_original) original in
                  let real_url := repo_mirror +:+ path in
                  PacmanRepo.add_server (Some mname) (Some real_url) (Some true)
                                        pacman_repo
                else pacman_repo)
              pacman_repo originals)
      end
  end.

(** [init_repos], lines 345-363: one mirror of the catalog. *)
Definition init_repos_mirror (originals : list string)
    (pacman_repo : PacmanRepo.t) (mirror : MirrorDecl) : result PacmanRepo.t :=
  match mr_name mirror with
  | None => Raise (ArchBuilderConfigError "mirror name not set")
  | Some mname =>
      match mr_repos mirror with
      | None => Raise (ArchBuilderConfigError "repos list not set")
      | Some maps => fold_result (init_repos_mapping mname originals) pacman_repo maps
      end
  end.

(** [init_repos], lines 303-370: the [PacmanRepo] built from one declaration,
    up to the call of [add_repo]. *)
Definition init_repos_build (self : Pacman) (repo : RepoDecl) : result PacmanRepo.t :=
  match r_name repo with
  | None => Raise (ArchBuilderConfigError "repo name not set")
  | Some name =>
      if String.eqb name "local" || Py.contains "/" name
      then Raise (ArchBuilderConfigError "bad repo name") else
      let pacman_repo := PacmanRepo.init (Some name) in
      let pacman_repo := match r_priority repo with
                         | Some p => PacmanRepo.set_priority p pacman_repo
                         | None => pacman_repo
                         end in
      let pacman_repo := match r_mirrorlist repo with
                         | Some m => PacmanRepo.set_mirrorlist (Some m) pacman_repo
                         | None => pacman_repo
                         end in
      if bool_decide (r_publickey repo ≠ None) && bool_decide (r_keyid repo = None)
      then Raise (ArchBuilderConfigError "publickey is provided without keyid") else
      let pacman_repo := match r_publickey repo with
                         | Some k => PacmanRepo.set_publickey (Some k) pacman_repo
                         | None => pacman_repo
                         end in
      let pacman_repo := match r_keyid repo with
                         | Some k => PacmanRepo.set_keyid (Some k) pacman_repo
                         | None => pacman_repo
                         end in
      servers ← init_repos_servers repo;
      originals ← map_result (λ server,
                    resolve_simple_values server (tgt_arch self) name) servers;
      pacman_repo ← fold_result (init_repos_mirror originals) pacman_repo
                                (mirrors self);
      Ok (foldl (λ pacman_repo original,
                   PacmanRepo.add_server None (Some original) (Some false) pacman_repo)
                pacman_repo originals)
  end.

(** [Pacman.init_repos()] *)
Definition init_repos (self : Pacman) : M unit :=
  match config_repo self with
  | None => raise (ArchBuilderConfigError "no repos found in config")
  | Some decls =>
      for_each decls (λ repo,
        let! pacman_repo := lift (init_repos_build self repo) in
        add_repo pacman_repo)
  end.

(** *** Package lookup *)

(** [self.databases] is a [dict] from repository name to database handle: an
    association list in registration order, read by its first match. *)
Fixpoint dict_get {V} (d : list (string * V)) (k : string) : option V :=
  match d with
  | [] => None
  | (k', v) :: d' => if String.eqb k' k then Some v else dict_get d' k
  end.

(** [lookup_package], lines 264-268: the loop over the database names. *)
Fixpoint lookup_in_databases (databases : list (string * DB)) (dbns : list string)
    (name : string) : result (list Package) :=
  match dbns with
  | [] => Raise (ValueError ("package " +:+ name +:+ " not found"))
  | dbn :: dbns' =>
      match dict_get databases dbn with
      | None => Raise (KeyError dbn)
      | Some db =>
          match get_pkg db name with
          | Some pkg => Ok [pkg]
          | None => lookup_in_databases databases dbns' name
          end
      end
  end.

(** [Pacman.lookup_package(name)] *)
Definition lookup_package (databases : list (string * DB)) (name : string)
  : result (list Package) :=
  if Py.contains ".pkg.tar." name then
    match load_pkg name with
    | None => Raise (RuntimeError ("load package " +:+ name +:+ " failed"))
    | Some pkg => Ok [pkg]
    end
  else
    match Py.split "/"%char name with
    | [s0; s1] =>
        if bool_decide (dict_get databases s0 = None) && negb (String.eqb s0 "local")
        then Raise (ValueError ("database " +:+ s0 +:+ " not found")) else
        db ← (if String.eqb s0 "local" then Ok get_localdb
              else match dict_get databases s0 with
                   | Some db => Ok db
                   | None => Raise (KeyError s0)
                   end);
        match get_pkg db s1 with
        | Some pkg => Ok [pkg]
        | None => Raise (ValueError ("package " +:+ s1 +:+ " not found"))
        end
    | [_] =>
        let pkg := find_grp_pkgs (databases.*2) name in
        if (0 <? length pkg)%nat then Ok pkg else
        lookup_in_databases databases (databases.*1) name
    | _ => Raise (ValueError ("bad package name " +:+ name))
    end.

(** *** Keyring trust *)

(** [find_package_file], the loop over [self.caches]. *)
Fixpoint find_in_caches (m : gmap string node) (caches : list string)
    (filename : string) : option string :=
  match caches with
  | [] => None
  | cache :: caches' =>
      let p := Py.path_join cache filename in
      if os_path_exists m p then Some p else find_in_caches m caches' filename
  end.

(** [Pacman.find_package_file(pkg)] *)
Definition find_package_file (pkg : Package) : M (option string) :=
  let! st := get in
  ret (find_in_caches (fs st) (caches st) (pkg_filename pkg)).

(** [libarchive.file_reader(path)]: the entries of the archive stored at
    [path].  The entries are taken when the archive is opened. *)
Definition open_archive (path : string) : M (list ArchiveEntry) :=
  let! st := get in
  match fs st !! path with
  | Some (File data _ _ _) => lift (file_reader data)
  | _ => raise (OSError path)
  end.

(** [trust_keyring_pkg], lines 535-553: the loop body for one archive entry;
    [names] is threaded through. *)
Definition trust_keyring_entry (target keyring : string) (names : list string)
    (file : ArchiveEntry) : M (list string) :=
  let pn := pathname file in
  if negb (Py.startswith pn keyring) then ret names else
  let fn := Py.drop (String.length keyring) pn in
  if (String.length fn <=? 0)%nat then ret names else
  let names := if Py.endswith fn ".gpg" then names ++ [Py.drop_last 4 fn]
               else names in
  let dest := Py.path_join target fn in
  do! write_file dest (File (String.concat "" (blocks file))
                            (e_mode file) (e_uid file) (e_gid file)) in
  ret names.

(** [for file in archive: ...] with the accumulator [names] *)
Fixpoint trust_keyring_entries (target keyring : string) (names : list string)
    (archive : list ArchiveEntry) : M (list string) :=
  match archive with
  | [] => ret names
  | file :: archive' =>
      let! names := trust_keyring_entry target keyring names file in
      trust_keyring_entries target keyring names archive'
  end.

(** [trust_keyring_pkg], lines 524-526: cleanup of the extract folder. *)
Definition trust_keyring_reset (target : string) : M unit :=
  let! st := get in
  do! (if os_path_exists (fs st) target then rmtree target else ret tt) in
  makedirs target.

(** [Pacman.trust_keyring_pkg(pkg)] *)
Definition trust_keyring_pkg (self : Pacman) (pkg : Package) : M unit :=
  if negb (gpgcheck self) then ret tt else
  let names := [] in
  let target := Py.path_join (work self) "keyrings" in
  let keyring := "usr/share/pacman/keyrings/" in
  let! path := find_package_file pkg in
  do! trust_keyring_reset target in
  match path with
  | None => raise (RuntimeError ("package " +:+ pkg_name pkg +:+ " not found"))
  | Some path =>
      let! archive := open_archive path in
      let! names := trust_keyring_entries target keyring names archive in
      pouplate_keys self names target
  end.

End Methods.

(** ** The specification's side

    The definitions below follow the words of the specification, not the
    code; the theorems compare the two. *)

Section Specification.
Context `{Collaborators}.

(** The server of a literal original URL: no name, not a mirror. *)
Definition original_server (original : string) : PacmanRepoServer.t :=
  PacmanRepoServer.mk (Some original) None false.

(** Mirror resolution, step 2, for one mapping: for each literal original
    URL that starts with the mapping's original prefix, a mirror server whose
    URL is the mirror prefix followed by the rest of the original URL. *)
Definition mapping_servers (mname : option string) (originals : list string)
    (mapping : MirrorMap) : list PacmanRepoServer.t :=
  original ← originals;
  match m_original mapping, m_mirror mapping with
  | Some prefix, Some mirror_prefix =>
      if Py.startswith original prefix
      then [PacmanRepoServer.mk
              (Some (mirror_prefix +:+ Py.drop (String.length prefix) original))
              mname true]
      else []
  | _, _ => []
  end.

(** Mirror resolution, step 2: the servers of all mappings of all catalog
    entries, in catalog order. *)
Definition mirror_servers (catalog : list MirrorDecl) (originals : list string)
  : list PacmanRepoServer.t :=
  mirror ← catalog;
  mapping ← default [] (mr_repos mirror);
  mapping_servers (mr_name mirror) originals mapping.

(** A line is a server (include) directive. *)
Definition is_server_line (line : string) : bool := Py.startswith line "Server = ".
Definition is_include_line (line : string) : bool := Py.startswith line "Include = ".

(** The comment line that precedes a server directive. *)
Definition server_comment (server : PacmanRepoServer.t) : string :=
  if PacmanRepoServer.mirror server
  then "# Mirror " +:+ Py.fmt (PacmanRepoServer.name server) +:+ nl
  else "# Original Repo" +:+ nl.

(** The server directive of a server. *)
Definition server_directive (server : PacmanRepoServer.t) : string :=
  "Server = " +:+ Py.fmt (PacmanRepoServer.url server) +:+ nl.

(** The section of one repository: its header, then either the include
    directive of its mirrorlist file or, per server, a comment and a server
    directive. *)
Definition repo_section (rootfs : bool) (repo : PacmanRepo.t) : list string :=
  ("[" +:+ Py.fmt (PacmanRepo.name repo) +:+ "]" +:+ nl) ::
  match rootfs, PacmanRepo.mirrorlist repo with
  | true, Some _ =>
      ["Include = /etc/pacman.d/" +:+ Py.fmt (PacmanRepo.name repo)
       +:+ "-mirrorlist" +:+ nl]
  | _, _ =>
      server ← PacmanRepo.servers repo;
      [server_comment server; server_directive server]
  end.

(** The configuration text: the global options, then one section per
    repository in registry order. *)
Definition config_lines (self : Pacman) (st : State) : list string :=
  ["[options]" +:+ nl] ++
  ((λ cache, "CacheDir = " +:+ cache +:+ nl) <$> caches st) ++
  ["RootDir = " +:+ root self +:+ nl;
   "GPGDir = " +:+ gpgdir self +:+ nl;
   "LogFile = " +:+ logfile self +:+ nl;
   "HoldPkg = pacman glibc" +:+ nl;
   "Architecture = " +:+ tgt_arch self +:+ nl;
   "UseSyslog" +:+ nl;
   "Color" +:+ nl;
   "CheckSpace" +:+ nl;
   "VerbosePkgLists" +:+ nl;
   "ParallelDownloads = 5" +:+ nl;
   "SigLevel = " +:+ (if gpgcheck self then "Required DatabaseOptional" else "Never")
     +:+ nl;
   "LocalFileSigLevel = Optional" +:+ nl] ++
  (repos st ≫= repo_section false).

(** The registry is in ascending order of priority. *)
Definition priority_le (a b : PacmanRepo.t) : Prop :=
  PacmanRepo.priority a ≤ PacmanRepo.priority b.

(** The repositories of a given priority, in the order of the list. *)
Definition with_priority (p : Z) (l : list PacmanRepo.t) : list PacmanRepo.t :=
  filter (λ r, PacmanRepo.priority r = p) l.

(** [add_repo] accepts the repository. *)
Definition accepted (repo : PacmanRepo.t) : Prop :=
  PacmanRepo.name repo ≠ None ∧ PacmanRepo.name repo ≠ Some "" ∧
  PacmanRepo.servers repo ≠ [].

Global Instance accepted_dec repo : Decision (accepted repo).
Proof. unfold accepted. apply _. Defined.

(** A sequence of [add_repo] calls, each in the state the previous one left
    (a call that raises leaves the registry as it was). *)
Definition add_repos (rs : list PacmanRepo.t) (st : State) : State :=
  foldl (λ st repo, (add_repo repo st).2) st rs.

(** The key-file directory inside a keyring package and the extension of a
    key file. *)
Definition keyring_prefix : string := "usr/share/pacman/keyrings/".
Definition key_ext : string := ".gpg".

(** The scratch directory of a builder. *)
Definition scratch_dir (self : Pacman) : string := Py.path_join (work self) "keyrings".

(** The remaining filename of an archive entry that is extracted: the path
    below the key-file directory [keyring], when the entry lies there and the
    rest is not empty. *)
Definition keyring_member (keyring : string) (file : ArchiveEntry) : option string :=
  if Py.startswith (pathname file) keyring then
    let fn := Py.drop (String.length keyring) (pathname file) in
    if bool_decide (fn = "") then None else Some fn
  else None.

(** The extracted entries of an archive with their remaining filenames, in
    archive order. *)
Definition keyring_members (keyring : string) (archive : list ArchiveEntry)
  : list (string * ArchiveEntry) :=
  omap (λ file, fn ← keyring_member keyring file; Some (fn, file)) archive.

(** What extraction stores for an entry: its bytes, mode and owner. *)
Definition entry_node (file : ArchiveEntry) : node :=
  File (String.concat "" (blocks file)) (e_mode file) (e_uid file) (e_gid file).

(** The file system after the given entries were written below [target]. *)
Definition extract_fs (target : string) (m : gmap string node)
    (ms : list (string * ArchiveEntry)) : gmap string node :=
  foldl (λ m ms, <[Py.path_join target ms.1 := entry_node ms.2]> m) m ms.

(** The operating system accepts each write in turn. *)
Fixpoint writes_ok (target : string) (m : gmap string node)
    (ms : list (string * ArchiveEntry)) : bool :=
  match ms with
  | [] => true
  | (fn, file) :: ms' =>
      let dest := Py.path_join target fn in
      bool_decide (m !! dest ≠ Some Dir) && os_permits m dest &&
      writes_ok target (<[dest := entry_node file]> m) ms'
  end.

(** The key identifiers of a list of extracted filenames: those that end in
    the key-file extension, with the extension removed. *)
Definition key_names (fns : list string) : list string :=
  (λ fn, Py.drop_last (String.length key_ext) fn) <$>
  filter (λ fn, Py.endswith fn key_ext = true) fns.


(** The operating system lets the scratch directory be reset: nothing or a
    directory is there, and it may be removed and created. *)
Definition reset_permitted (target : string) (m : gmap string node) : bool :=
  match m !! target with
  | None => os_permits m target
  | Some Dir => os_permits m target && os_permits (remove_tree target m) target
  | Some (File _ _ _ _) => false
  end.

(** The file system after the scratch directory was reset: what was below
    it is gone and the directory is there, empty. *)
Definition reset_fs (target : string) (m : gmap string node) : gmap string node :=
  <[target := Dir]> (match m !! target with
                     | Some Dir => remove_tree target m
                     | _ => m
                     end).


(** The command that populates the keyring from [folder] with [names]. *)
Definition populate_command (self : Pacman) (folder : string) (names : list string)
  : list string :=
  ["pacman-key";
   "--gpgdir=" +:+ Py.path_join (root self) "etc/pacman.d/gnupg";
   "--config=" +:+ Py.path_join (work self) "pacman.conf";
   "--populate"; "--populate-from"; folder] ++ names.

(** The configuration artifact of a builder and whether the operating system
    lets it be replaced. *)
Definition config_path (self : Pacman) : string :=
  Py.path_join (work self) "pacman.conf".


(** The first package of the given name in a list of databases, in order. *)
Fixpoint first_package (dbs : list DB) (name : string) : option Package :=
  match dbs with
  | [] => None
  | db :: dbs' =>
      match get_pkg db name with
      | Some pkg => Some pkg
      | None => first_package dbs' name
      end
  end.

(** A declaration sets [publickey] but not [keyid]. *)
Definition publickey_without_keyid (repo : RepoDecl) : Prop :=
  r_publickey repo ≠ None ∧ r_keyid repo = None.

(** An exception is a configuration error. *)
Definition is_config_error (e : exn) : Prop :=
  ∃ msg, e = ArchBuilderConfigError msg.

End Specification.

(** ** The other methods of [Pacman]

    The package-manager and key-tool wrappers, the cache set-up, the keyring
    initialisation and the constructor.  Log output is not part of the
    state. *)

Section FurtherMethods.
Context `{Collaborators}.

Definition set_caches (cs : list string) (st : State) : State :=
  {| repos := repos st; caches := cs; fs := fs st; calls := calls st |}.

(** A statement that updates an attribute in place. *)
Definition modify (f : State → State) : M unit := λ st, (Ok tt, f st).

(** [os.makedirs(p, mode=0o755, exist_ok=True)]: a directory that is there
    already is accepted, a file at [p] still raises. *)
Definition makedirs_exist_ok (p : string) : M unit := λ st,
  match fs st !! p with
  | None =>
      if os_permits (fs st) p then (Ok tt, set_fs (<[p := Dir]> (fs st)) st)
      else (Raise (OSError p), st)
  | Some Dir => (Ok tt, st)
  | Some (File _ _ _ _) => (Raise (OSError p), st)
  end.

(** [Pacman.init_cache()] *)
Definition init_cache (self : Pacman) : M unit :=
  let host_cache := "/var/cache/pacman/pkg" in
  let work_cache := Py.path_join (work self) "packages" in
  let root_cache := Py.path_join (root self) "var/cache/pacman/pkg" in
  do! modify (set_caches []) in
  let! st := get in
  do! (if os_path_exists (fs st) host_cache
       then modify (λ st, set_caches (caches st ++ [host_cache]) st)
       else ret tt) in
  do! modify (λ st, set_caches (caches st ++ [work_cache]) st) in
  do! modify (λ st, set_caches (caches st ++ [root_cache]) st) in
  do! makedirs_exist_ok work_cache in
  makedirs_exist_ok root_cache.

(** [Pacman.pacman(args)] *)
Definition pacman (self : Pacman) (args : list string) : M unit :=
  let config := Py.path_join (work self) "pacman.conf" in
  let cmds := ["pacman"] in
  let cmds := cmds ++ ["--noconfirm"] in
  let cmds := cmds ++ ["--root=" +:+ root self] in
  let cmds := cmds ++ ["--config=" +:+ config] in
  let cmds := cmds ++ args in
  let! r := run_external cmds in
  if bool_decide (r ≠ 0)
  then raise (OSError ("pacman failed with " +:+ pretty r))
  else ret tt.

(** [Pacman.refresh(force)] *)
Definition refresh (self : Pacman) (force : bool) : M unit :=
  let args := ["--sync"; "--refresh"] in
  let args := if force then args ++ ["--refresh"] else args in
  pacman self args.

(** [Pacman.uninstall(pkgs)] *)
Definition uninstall (self : Pacman) (pkgs : list string) : M unit :=
  if (length pkgs =? 0)%nat then ret tt else
  let args := ["--needed"; "--remove"] in
  let args := args ++ pkgs in
  pacman self args.

(** [Pacman.install(pkgs, force, asdeps, nodeps)] *)
Definition install (self : Pacman) (pkgs : list string)
    (force asdeps nodeps : bool) : M unit :=
  if (length pkgs =? 0)%nat then ret tt else
  let core_db := "var/lib/pacman/sync/core.db" in
  let! st := get in
  do! (if negb (os_path_exists (fs st) (Py.path_join (root self) core_db))
       then refresh self false else ret tt) in
  let args := ["--sync"] in
  let args := if negb force then args ++ ["--needed"] else args in
  let args := if asdeps then args ++ ["--asdeps"] else args in
  let args := if nodeps then args ++ ["--nodeps"; "--nodeps"] else args in
  let args := args ++ pkgs in
  pacman self args.

(** [Pacman.download(pkgs)] *)
Definition download (self : Pacman) (pkgs : list string) : M unit :=
  if (length pkgs =? 0)%nat then ret tt else
  let core_db := "var/lib/pacman/sync/core.db" in
  let! st := get in
  do! (if negb (os_path_exists (fs st) (Py.path_join (root self) core_db))
       then refresh self false else ret tt) in
  let args := ["--sync"; "--downloadonly"; "--nodeps"; "--nodeps"] in
  let args := args ++ pkgs in
  pacman self args.

(** [Pacman.install_local(files)] *)
Definition install_local (self : Pacman) (files : list string) : M unit :=
  if (length files =? 0)%nat then ret tt else
  let args := ["--needed"; "--upgrade"] in
  let args := args ++ files in
  pacman self args.

(** An argument that is a string or a list of strings; the methods raise
    [TypeError] on any other type, which this type leaves out. *)
Inductive keys_arg : Type :=
  | KeyStr (key : string)
  | KeyList (keys : list string).

(** [Pacman.recv_keys(keys)] *)
Definition recv_keys (self : Pacman) (keys : keys_arg) : M unit :=
  let args := ["--recv-keys"] in
  match keys with
  | KeyStr key => pacman_key self (args ++ [key])
  | KeyList keys =>
      if (length keys <=? 0)%nat then ret tt else pacman_key self (args ++ keys)
  end.

(** [Pacman.lsign_key(key)] *)
Definition lsign_key (self : Pacman) (key : string) : M unit :=
  pacman_key self ["--lsign-key"; key].

(** [Pacman.pouplate_keys(names, folder)] with every kind of argument:
    [names] is [None], a string or a list, [folder] is [None] or a string. *)
Definition pouplate_keys_any (self : Pacman) (names : option keys_arg)
    (folder : option string) : M unit :=
  let args := ["--populate"] in
  let args := match folder with
              | Some folder =>
                  if negb (String.eqb folder "")
                  then args ++ ["--populate-from"; folder] else args
              | None => args
              end in
  let args := match names with
              | None => args
              | Some (KeyStr name) => args ++ [name]
              | Some (KeyList names) => args ++ names
              end in
  pacman_key self args.

(** What a method can end in besides returning and raising one of the
    exceptions above: the interpreter's own error for a local variable read
    before it is bound, and a command line that holds [None], which the
    command runner is given and the log of commands cannot hold. *)
Inductive fault : Type :=
  | UnboundLocalError (var : string)
  | NoneArgument (args : list (option string)).

Inductive outcome (A : Type) : Type :=
  | Returns (a : A)
  | Raises (e : exn)
  | Faults (f : fault).
#[global] Arguments Returns {A} a.
#[global] Arguments Raises {A} e.
#[global] Arguments Faults {A} f.

Definition F (A : Type) : Type := State → outcome A * State.

Definition F_ret {A} (a : A) : F A := λ st, (Returns a, st).
Definition F_fault {A} (f : fault) : F A := λ st, (Faults f, st).
Definition F_bind {A B} (c : F A) (k : A → F B) : F B :=
  λ st, match c st with
        | (Returns a, st') => k a st'
        | (Raises e, st') => (Raises e, st')
        | (Faults f, st') => (Faults f, st')
        end.
Definition F_lift {A} (c : M A) : F A :=
  λ st, match c st with
        | (Ok a, st') => (Returns a, st')
        | (Raise e, st') => (Raises e, st')
        end.

Notation "'let?' x := c 'in' k" := (F_bind c (λ x, k))
  (at level 10, x name, c at level 100, k at level 200, only parsing).
Notation "'do?' c 'in' k" := (F_bind c (λ _, k))
  (at level 10, c at level 100, k at level 200, only parsing).

(** [init_keyring], lines 155-157 and 160-162: a download with [wget]. *)
Definition init_keyring_wget (url dest : string) : M unit :=
  let cmds := ["wget"; url; "-O"; dest] in
  let! r := run_external cmds in
  if bool_decide (r ≠ 0)
  then raise (OSError ("wget failed with " +:+ pretty r))
  else ret tt.

(** [init_keyring], lines 153-167: the loop body for one repository.  The
    local variable [keypath] is bound by the public-key branch only; its
    value, if any, is threaded through the loop. *)
Definition init_keyring_repo (self : Pacman) (keypath : option string)
    (repo : PacmanRepo.t) : F (option string) :=
  do? match PacmanRepo.mirrorlist repo with
      | Some mirrorlist =>
          match keypath with
          | Some keypath => F_lift (init_keyring_wget mirrorlist keypath)
          | None => F_fault (UnboundLocalError "keypath")
          end
      | None => F_ret tt
      end in
  match PacmanRepo.publickey repo with
  | Some publickey =>
      let keypath :=
        Py.path_join (work self) (Py.fmt (PacmanRepo.name repo) +:+ ".pub") in
      do? F_lift (init_keyring_wget publickey keypath) in
      do? F_lift (pacman_key self ["--add"; keypath]) in
      do? match PacmanRepo.keyid repo with
          | Some keyid => F_lift (lsign_key self keyid)
          | None => F_fault (NoneArgument [Some "--lsign-key"; None])
          end in
      F_ret (Some keypath)
  | None =>
      match PacmanRepo.keyid repo with
      | Some keyid =>
          do? F_lift (recv_keys self (KeyStr keyid)) in
          do? F_lift (lsign_key self keyid) in
          F_ret keypath
      | None => F_ret keypath
      end
  end.

(** [for repo in self.repos: ...] of [init_keyring] *)
Fixpoint init_keyring_repos (self : Pacman) (keypath : option string)
    (rs : list PacmanRepo.t) : F unit :=
  match rs with
  | [] => F_ret tt
  | repo :: rs' =>
      let? keypath := init_keyring_repo self keypath repo in
      init_keyring_repos self keypath rs'
  end.

(** [Pacman.init_keyring()] *)
Definition init_keyring (self : Pacman) : F unit :=
  let path := Py.path_join (work self) "rootfs" in
  let keyring := Py.path_join path "etc/pacman.d/gnupg" in
  if negb (gpgcheck self) then F_ret tt else
  λ st,
    if os_path_exists (fs st) (Py.path_join keyring "trustdb.gpg")
    then (Returns tt, st)
    else (do? F_lift (pacman_key self ["--init"]) in
          init_keyring_repos self None (repos st)) st.

(** [Pacman.add_trust_keyring_pkg(pkgnames)]; [databases] is
    [self.databases], which the method only reads. *)
Definition add_trust_keyring_pkg (self : Pacman) (databases : list (string * DB))
    (pkgnames : list string) : M unit :=
  if negb (gpgcheck self) then ret tt else
  if (length pkgnames <=? 0)%nat then ret tt else
  do! download self pkgnames in
  for_each pkgnames (λ pkgname,
    let! pkgs := lift (lookup_package databases pkgname) in
    for_each pkgs (λ pkg, trust_keyring_pkg self pkg)).

(** [Pacman.__init__(ctx)] from line 391 on, for a context whose
    configuration has the [pacman] key: the registry and the cache list
    start empty, then the caches, the repositories and the configuration
    file are set up.  The handle of the database engine, which is given the
    cache directories in between, holds no state of this model. *)
Definition pacman_init (self : Pacman) : M unit :=
  do! modify (set_caches []) in
  do! modify (set_repos []) in
  do! init_cache self in
  do! init_repos self in
  init_config self.

End FurtherMethods.

(** ** Further notions of the specification's side *)

(** A catalog entry names its mirror and lists its mappings, and every
    mapping has both prefixes. *)
Definition mapping_well_formed (mapping : MirrorMap) : Prop :=
  m_original mapping ≠ None ∧ m_mirror mapping ≠ None.

Definition mirror_well_formed (mirror : MirrorDecl) : Prop :=
  mr_name mirror ≠ None ∧
  ∃ maps, mr_repos mirror = Some maps ∧ Forall mapping_well_formed maps.

(** The name of a repository is usable: not empty, not the reserved name,
    without a slash. *)
Definition name_usable (name : string) : Prop :=
  name ≠ "" ∧ name ≠ "local" ∧ Py.contains "/" name = false.

(** The header line of a section, and the lines that are headers. *)
Definition section_header (name : option string) : string :=
  "[" +:+ Py.fmt name +:+ "]" +:+ nl.

Definition is_header_line (line : string) : bool := Py.startswith line "[".

(** The command line of the package manager for the given arguments. *)
Definition pacman_command (self : Pacman) (args : list string) : list string :=
  ["pacman"; "--noconfirm"; "--root=" +:+ root self;
   "--config=" +:+ Py.path_join (work self) "pacman.conf"] ++ args.

(** The command line of the key tool for the given arguments. *)
Definition pacman_key_command (self : Pacman) (args : list string) : list string :=
  ["pacman-key";
   "--gpgdir=" +:+ Py.path_join (root self) "etc/pacman.d/gnupg";
   "--config=" +:+ Py.path_join (work self) "pacman.conf"] ++ args.

(** The cache directories of a builder over a file system. *)
Definition cache_dirs (self : Pacman) (m : gmap string node) : list string :=
  (if bool_decide (is_Some (m !! "/var/cache/pacman/pkg"))
   then ["/var/cache/pacman/pkg"] else []) ++
  [Py.path_join (work self) "packages";
   Py.path_join (root self) "var/cache/pacman/pkg"].

(** A builder with another list of declarations. *)
Definition with_declarations (decls : list RepoDecl) (self : Pacman) : Pacman :=
  {| gpgcheck := gpgcheck self; tgt_arch := tgt_arch self; work := work self;
     root := root self; gpgdir := gpgdir self; logfile := logfile self;
     config_repo := Some decls; mirrors := mirrors self |}.

(** The attributes of a repository other than its servers. *)
Definition repo_meta (r : PacmanRepo.t)
  : option string * Z * option string * option string * option string :=
  (PacmanRepo.name r, PacmanRepo.priority r, PacmanRepo.mirrorlist r,
   PacmanRepo.publickey r, PacmanRepo.keyid r).

(** The arguments [install] hands to the package manager. *)
Definition install_args (force asdeps nodeps : bool) (pkgs : list string)
  : list string :=
  ["--sync"] ++ (if force then [] else ["--needed"]) ++
  (if asdeps then ["--asdeps"] else []) ++
  (if nodeps then ["--nodeps"; "--nodeps"] else []) ++ pkgs.

(** The synchronised database whose absence makes [install] and [download]
    refresh first. *)
Definition core_db_path (self : Pacman) : string :=
  Py.path_join (root self) "var/lib/pacman/sync/core.db".

(** A computation that does nothing but run the package manager: it adds
    commands of the form [pacman_command] to the log and leaves the file
    system, the registry and the cache list alone. *)
Definition runs_pacman_only `{Collaborators} {A} (self : Pacman) (c : M A) : Prop :=
  ∀ st, ∃ new,
    calls (c st).2 = calls st ++ new ∧
    Forall (λ cmd, ∃ args, cmd = pacman_command self args) new ∧
    fs (c st).2 = fs st ∧ repos (c st).2 = repos st ∧ caches (c st).2 = caches st.

(** A computation that only adds commands to the log. *)
Definition F_logs_only {A} (c : F A) : Prop :=
  ∀ st, ∃ new, calls (c st).2 = calls st ++ new ∧ fs (c st).2 = fs st.

(** The trust database whose presence makes [init_keyring] return at once. *)
Definition trustdb_path (self : Pacman) : string :=
  Py.path_join
    (Py.path_join (Py.path_join (work self) "rootfs") "etc/pacman.d/gnupg")
    "trustdb.gpg".

(** ** Three statements that the code does not satisfy

    Each is refuted below by a run of the concrete builder. *)


(** The key identifiers handed to the key tool are pairwise distinct. *)
Definition key_names_distinct : Prop :=
  ∀ (C : Collaborators) (self : Pacman) (pkg : Package) (st st' : State)
    (r : result unit) (names : list string),
    trust_keyring_pkg self pkg st = (r, st') →
    calls st' = calls st ++ [populate_command self (scratch_dir self) names] →
    NoDup names.


(** ** A concrete builder

    One instance of the collaborators and a few inputs, on which the
    definitions above are evaluated. *)

Module Example.

(** Modelled from the spec: [resolve_simple_values] of
    [builder.lib.subscript], which is not part of this file.  It replaces the
    placeholders [$repo] and [$arch] of a template, as in the specification's
    example; [skip] counts the characters of a placeholder still to drop. *)
Fixpoint substitute (arch repo : string) (skip : nat) (s : string) : string :=
  match s with
  | EmptyString => EmptyString
  | String c s' =>
      match skip with
      | S k => substitute arch repo k s'
      | O =>
          if Py.startswith s "$repo" then repo +:+ substitute arch repo 4 s'
          else if Py.startswith s "$arch" then arch +:+ substitute arch repo 4 s'
          else String c (substitute arch repo 0 s')
      end
  end.

(** A database is the list of its packages, each with the groups it is in. *)
Definition find_pkg (db : list (string * list string)) (name : string)
  : option string :=
  (list_find (λ p, p.1 = name) db) ≫= (λ r, Some r.2.1).

Definition group_pkgs (dbs : list (list (string * list string))) (group : string)
  : list string :=
  db ← dbs; p ← db; if bool_decide (group ∈ p.2) then [p.1] else [].

(** Three archives: a keyring package, one whose entry names an absolute
    path, and one that holds the same key file twice. *)
Definition keyring_archive : list ArchiveEntry :=
  [ {| pathname := "usr/"; blocks := []; e_mode := 493; e_uid := 0; e_gid := 0 |};
    {| pathname := "usr/share/pacman/keyrings/"; blocks := [];
       e_mode := 493; e_uid := 0; e_gid := 0 |};
    {| pathname := "usr/share/pacman/keyrings/archlinux.gpg";
       blocks := ["key"; "data"]; e_mode := 420; e_uid := 0; e_gid := 0 |};
    {| pathname := "usr/share/pacman/keyrings/archlinux-trusted";
       blocks := ["trusted"]; e_mode := 420; e_uid := 0; e_gid := 0 |} ].

Definition absolute_archive : list ArchiveEntry :=
  [ {| pathname := "usr/share/pacman/keyrings//etc/passwd";
       blocks := ["root::0:0::/:/bin/sh"]; e_mode := 420; e_uid := 0; e_gid := 0 |} ].

Definition repeated_archive : list ArchiveEntry :=
  [ {| pathname := "usr/share/pacman/keyrings/archlinux.gpg";
       blocks := ["old"]; e_mode := 420; e_uid := 0; e_gid := 0 |};
    {| pathname := "usr/share/pacman/keyrings/archlinux.gpg";
       blocks := ["new"]; e_mode := 420; e_uid := 0; e_gid := 0 |} ].

Definition read_archive (data : string) : result (list ArchiveEntry) :=
  if String.eqb data "keyring" then Ok keyring_archive
  else if String.eqb data "absolute" then Ok absolute_archive
  else if String.eqb data "repeated" then Ok repeated_archive
  else Raise (OSError "unrecognized archive format").

Definition world : Collaborators := {|
  resolve_simple_values := λ template arch repo, Ok (substitute arch repo 0 template);
  Package := string;
  pkg_name := λ p, p;
  pkg_filename := λ p, p +:+ "-1-any.pkg.tar.zst";
  DB := list (string * list string);
  get_pkg := find_pkg;
  find_grp_pkgs := group_pkgs;
  load_pkg := λ _, None;
  get_localdb := [];
  file_reader := read_archive;
  os_permits := λ _ _, true;
  new_mode := 420;
  new_uid := 0;
  new_gid := 0;
  exit_status := λ _ _, 0;
|}.

(** Two packages: a keyring package, and one that is in no cache. *)
Definition keyring_pkg : @Package world := "archlinux-keyring".

Definition core_decl : RepoDecl := {|
  r_name := Some "core"; r_priority := None; r_mirrorlist := None;
  r_publickey := None; r_keyid := None;
  r_server := Some "https://example.org/$repo/os/$arch"; r_servers := None |}.

(** The same repository declared under the [servers] key. *)
Definition core_servers_decl : RepoDecl := {|
  r_name := Some "core"; r_priority := None; r_mirrorlist := None;
  r_publickey := None; r_keyid := None;
  r_server := None; r_servers := Some ["https://example.org/$repo/os/$arch"] |}.

(** A declaration with both keys. *)
Definition both_keys_decl : RepoDecl := {|
  r_name := Some "core"; r_priority := None; r_mirrorlist := None;
  r_publickey := None; r_keyid := None;
  r_server := Some "ab"; r_servers := Some ["https://example.org/$repo/os/$arch"] |}.

Definition signed_decl : RepoDecl := {|
  r_name := Some "extra"; r_priority := Some 5; r_mirrorlist := None;
  r_publickey := Some "https://example.org/extra.pub"; r_keyid := None;
  r_server := Some "https://example.org/$repo/os/$arch"; r_servers := None |}.

Definition example_mirror : MirrorDecl := {|
  mr_name := Some "fast";
  mr_repos := Some [ {| m_original := Some "https://example.org/";
                        m_mirror := Some "https://mirror.example/" |} ] |}.

Definition builder (decls : list RepoDecl) : Pacman := {|
  gpgcheck := true; tgt_arch := "x86_64"; work := "/work"; root := "/work/rootfs";
  gpgdir := "/work/rootfs/etc/pacman.d/gnupg"; logfile := "/work/pacman.log";
  config_repo := Some decls; mirrors := [example_mirror] |}.

Definition package_file (data : string) : gmap string node :=
  {[ "/work/packages/archlinux-keyring-1-any.pkg.tar.zst" := File data 420 0 0 ]}.

(** A fresh builder state over a file system. *)
Definition state (m : gmap string node) : State := {|
  repos := []; caches := ["/work/packages"; "/work/rootfs/var/cache/pacman/pkg"];
  fs := m; calls := [] |}.

(** A scratch directory left by an earlier extraction. *)
Definition stale_scratch : gmap string node :=
  {[ "/work/keyrings" := Dir; "/work/keyrings/old.gpg" := File "stale" 420 0 0 ]}.

Definition repo_of (name : string) (priority : Z) : PacmanRepo.t :=
  PacmanRepo.mk (Some name) priority [original_server ("https://example.org/" +:+ name)]
                None None None.

Definition databases : list (string * list (string * list string)) :=
  [ ("core", [("bash", ["base"]); ("base", [])]);
    ("extra", [("vim", []); ("bash", [])]) ].

(** [trust_keyring_pkg] of the concrete builder on a package, from a fresh
    state over a file system. *)
Definition trust (pkg : @Package world) (m : gmap string node)
  : result unit * State :=
  @trust_keyring_pkg world (builder []) pkg (state m).

(** A builder with signature checking off. *)
Definition unsigned_builder : Pacman := {|
  gpgcheck := false; tgt_arch := "x86_64"; work := "/work"; root := "/work/rootfs";
  gpgdir := "/work/rootfs/etc/pacman.d/gnupg"; logfile := "/work/pacman.log";
  config_repo := Some []; mirrors := [] |}.



Definition failing_world : Collaborators := {|
  resolve_simple_values := λ template arch repo, Ok (substitute arch repo 0 template);
  Package := string;
  pkg_name := λ p, p;
  pkg_filename := λ p, p +:+ "-1-any.pkg.tar.zst";
  DB := list (string * list string);
  get_pkg := find_pkg;
  find_grp_pkgs := group_pkgs;
  load_pkg := λ _, None;
  get_localdb := [];
  file_reader := read_archive;
  os_permits := λ _ _, true;
  new_mode := 420;
  new_uid := 0;
  new_gid := 0;
  exit_status := λ _ _, 1;
|}.

(** A repository that has a mirrorlist and no public key. *)
Definition mirrorlist_repo : PacmanRepo.t :=
  PacmanRepo.mk (Some "core") 10
    [original_server "https://example.org/core"]
    (Some "https://example.org/mirrorlist") None None.

(** The repository [init_repos] builds from [core_decl]. *)
Definition core_repo : PacmanRepo.t :=
  PacmanRepo.mk (Some "core") 10000
    [ PacmanRepoServer.mk (Some "https://mirror.example/core/os/x86_64")
                          (Some "fast") true;
      PacmanRepoServer.mk (Some "https://example.org/core/os/x86_64")
                          None false ]
    None None None.

End Example.

(** * Properties *)

(** ** Strings *)

Lemma startswith_spec (s p : string) :
  Py.startswith s p = true ↔ ∃ r, s = p +:+ r.
Proof.
  revert s. induction p as [|c p IH]; intros s; simpl.
  - split; [intros _; by exists s | done].
  - destruct s as [|d s]; simpl.
    + split; [done | intros [r Hr]; discriminate].
    + destruct (Ascii.eqb_spec d c) as [->|Hne].
      * rewrite IH. split; intros [r Hr]; exists r; simpl in *; congruence.
      * split; [done | intros [r Hr]; simpl in *; congruence].
Qed.

Lemma startswith_app (p r : string) : Py.startswith (p +:+ r) p = true.
Proof. apply startswith_spec. eauto. Qed.

Lemma drop_app (p r : string) : Py.drop (String.length p) (p +:+ r) = r.
Proof. induction p as [|c p IH]; simpl; [by destruct r | done]. Qed.

Lemma length_app (a b : string) :
  String.length (a +:+ b) = (String.length a + String.length b)%nat.
Proof. induction a as [|c a IH]; simpl; [done | by rewrite IH]. Qed.

Lemma take_app (a b : string) : Py.take (String.length a) (a +:+ b) = a.
Proof. induction a as [|c a IH]; simpl; [by destruct b | by rewrite IH]. Qed.

Lemma take_drop (n : nat) (s : string) : Py.take n s +:+ Py.drop n s = s.
Proof.
  revert s. induction n as [|n IH]; intros [|c s]; simpl; try done.
  by rewrite IH.
Qed.

Lemma app_assoc_string (a b c : string) : (a +:+ b) +:+ c = a +:+ (b +:+ c).
Proof. induction a as [|x a IH]; simpl; [done | by rewrite IH]. Qed.

Lemma endswith_spec (s suf : string) :
  Py.endswith s suf = true ↔ ∃ r, s = r +:+ suf.
Proof.
  unfold Py.endswith. rewrite andb_true_iff, Nat.leb_le, String.eqb_eq. split.
  - intros [Hlen Hdrop].
    set (n := (String.length s - String.length suf)%nat) in *.
    exists (Py.take n s). rewrite <- Hdrop. symmetry. apply take_drop.
  - intros [r ->]. rewrite length_app. split; [lia|].
    replace (String.length r + String.length suf - String.length suf)%nat
      with (String.length r) by lia.
    apply drop_app.
Qed.

Lemma drop_last_app (r suf : string) :
  Py.drop_last (String.length suf) (r +:+ suf) = r.
Proof.
  unfold Py.drop_last. rewrite length_app.
  replace (String.length r + String.length suf - String.length suf)%nat
    with (String.length r) by lia.
  apply take_app.
Qed.

Lemma contains_cons (sub : string) (c : ascii) (s : string) :
  Py.contains sub (String c s) = false → Py.contains sub s = false.
Proof. simpl. by intros [_ ?]%orb_false_iff. Qed.

Lemma split_no_separator (c : ascii) (s : string) :
  Py.contains (String c "") s = false → Py.split c s = [s].
Proof.
  induction s as [|d s IH]; [done|].
  intros Hc. pose proof (contains_cons _ _ _ Hc) as Hs.
  simpl in Hc. apply orb_false_iff in Hc as [Hd _].
  simpl. destruct (Ascii.eqb d c); [done|]. by rewrite (IH Hs).
Qed.


Lemma drop_app_plus (x b : string) (k : nat) :
  Py.drop (String.length x + k) (x +:+ b) = Py.drop k b.
Proof. induction x as [|c x IH]; simpl; [done | apply IH]. Qed.

Lemma endswith_app_r (x b suf : string) :
  (String.length suf ≤ String.length b)%nat →
  Py.endswith (x +:+ b) suf = Py.endswith b suf.
Proof.
  intros Hlen. unfold Py.endswith. rewrite length_app.
  replace (String.length x + String.length b - String.length suf)%nat
    with (String.length x + (String.length b - String.length suf))%nat by lia.
  rewrite drop_app_plus. f_equal.
  destruct (Nat.leb_spec (String.length suf) (String.length b));
    destruct (Nat.leb_spec (String.length suf) (String.length x + String.length b));
    try done; lia.
Qed.

(** A path joined below a directory whose name ends in a component never
    ends in a separator: [os.path.join(work, "keyrings")] and the like. *)
Lemma path_join_component (a b : string) :
  Py.startswith b "/" = false → b ≠ "" → Py.endswith b "/" = false →
  Py.endswith (Py.path_join a b) "/" = false ∧ Py.path_join a b ≠ "".
Proof.
  intros Hb Hne Hend. unfold Py.path_join. rewrite Hb.
  assert (Hlen : (1 ≤ String.length b)%nat) by (destruct b; simpl; [done|lia]).
  assert (Hsuf : ∀ x, Py.endswith (x +:+ b) "/" = false).
  { intros x. by rewrite endswith_app_r. }
  assert (Hnon : ∀ x, x +:+ b ≠ "").
  { intros x Hx. apply (f_equal String.length) in Hx.
    rewrite length_app in Hx. simpl in Hx. lia. }
  destruct (_ || _); [split; [apply Hsuf | apply Hnon]|].
  rewrite <- app_assoc_string. split; [apply Hsuf | apply Hnon].
Qed.

(** ** The stable sort *)

Section SortBy.
Context {A : Type} (key : A → Z).

Let key_le (a b : A) : Prop := key a ≤ key b.

Lemma insert_by_perm (x : A) (l : list A) : Py.insert_by key x l ≡ₚ x :: l.
Proof.
  induction l as [|y l IH]; simpl; [done|].
  destruct (key x <=? key y); [done|]. rewrite IH. apply Permutation_swap.
Qed.

Lemma sort_by_perm (l : list A) : Py.sort_by key l ≡ₚ l.
Proof.
  induction l as [|x l IH]; simpl; [done|]. by rewrite insert_by_perm, IH.
Qed.

Lemma insert_by_sorted (x : A) (l : list A) :
  StronglySorted key_le l → StronglySorted key_le (Py.insert_by key x l).
Proof.
  induction 1 as [|y l Hl IH Hy]; simpl.
  - repeat constructor.
  - destruct (Z.leb_spec (key x) (key y)) as [Hxy|Hxy].
    + constructor; [by constructor|]. constructor; [done|].
      eapply Forall_impl; [exact Hy|]. unfold key_le. intros; simpl in *; lia.
    + constructor; [done|]. rewrite insert_by_perm. constructor; [|done].
      unfold key_le. lia.
Qed.

Lemma sort_by_sorted (l : list A) : StronglySorted key_le (Py.sort_by key l).
Proof.
  induction l as [|x l IH]; simpl; [constructor | by apply insert_by_sorted].
Qed.

(** Inserting skips only elements of a strictly smaller key, so the elements
    of any one key stay in the order they had. *)
Lemma insert_by_stable (p : Z) (x : A) (l : list A) :
  filter (λ a, key a = p) (Py.insert_by key x l) = filter (λ a, key a = p) (x :: l).
Proof.
  induction l as [|y l IH]; simpl; [done|].
  destruct (Z.leb_spec (key x) (key y)) as [Hxy|Hxy]; [done|].
  rewrite (filter_cons _ y), IH, !filter_cons.
  repeat case_decide; try done; lia.
Qed.

Lemma sort_by_stable (p : Z) (l : list A) :
  filter (λ a, key a = p) (Py.sort_by key l) = filter (λ a, key a = p) l.
Proof.
  induction l as [|x l IH]; simpl; [done|].
  by rewrite insert_by_stable, !filter_cons, IH.
Qed.

(** A list in ascending key order is determined by its elements of each key
    in order: whatever stable sort [list.sort] runs, it returns [sort_by]. *)
Lemma sort_by_unique (l1 l2 : list A) :
  StronglySorted key_le l1 → StronglySorted key_le l2 →
  (∀ p, filter (λ a, key a = p) l1 = filter (λ a, key a = p) l2) →
  l1 = l2.
Proof.
  intros H1. revert l2. induction H1 as [|x l1 Hl1 IH Hx]; intros l2 H2 Hf.
  - destruct l2 as [|y l2]; [done|].
    specialize (Hf (key y)). rewrite filter_cons_True in Hf by done. done.
  - destruct H2 as [|y l2 Hl2 Hy].
    { specialize (Hf (key x)). rewrite filter_cons_True in Hf by done. done. }
    assert (Hkey : key x = key y).
    { destruct (decide (key x = key y)) as [|Hne]; [done|].
      assert (x ∈ l2) as Hxin.
      { pose proof (Hf (key x)) as Hfx.
        rewrite filter_cons_True, (filter_cons_False _ y) in Hfx by done.
        assert (x ∈ filter (λ a, key a = key x) l2) as Hin
          by (rewrite <- Hfx; left).
        by apply list_elem_of_filter in Hin as [_ ?]. }
      assert (y ∈ l1) as Hyin.
      { pose proof (Hf (key y)) as Hfy.
        rewrite (filter_cons_True _ y), (filter_cons_False _ x) in Hfy by done.
        assert (y ∈ filter (λ a, key a = key y) l1) as Hin
          by (rewrite Hfy; left).
        by apply list_elem_of_filter in Hin as [_ ?]. }
      rewrite Forall_forall in Hx, Hy.
      pose proof (Hx y Hyin). pose proof (Hy x Hxin). unfold key_le in *. lia. }
    assert (x = y) as ->.
    { pose proof (Hf (key x)) as Hfx.
      rewrite filter_cons_True, (filter_cons_True _ y) in Hfx by done.
      congruence. }
    f_equal. apply IH; [done|]. intros p. specialize (Hf p).
    rewrite !filter_cons in Hf. case_decide; congruence.
Qed.

End SortBy.

(** ** Repository registry *)

Lemma add_repo_accepted (repo : PacmanRepo.t) (st : State) :
  accepted repo →
  add_repo repo st =
    (Ok tt, set_repos (Py.sort_by PacmanRepo.priority (repos st ++ [repo])) st).
Proof.
  intros (Hn & Hn' & Hs). unfold add_repo.
  rewrite bool_decide_false by (intros [?|?]; done).
  destruct (PacmanRepo.servers repo); done.
Qed.

Lemma add_repo_rejected (repo : PacmanRepo.t) (st : State) :
  ¬ accepted repo →
  add_repo repo st = (Raise (ArchBuilderConfigError "bad repo"), st).
Proof.
  intros Hn. unfold add_repo.
  destruct (bool_decide _) eqn:Hb; [done|].
  apply bool_decide_eq_false in Hb.
  destruct (PacmanRepo.servers repo) eqn:Hs; [done|].
  exfalso. apply Hn. unfold accepted. rewrite Hs. naive_solver.
Qed.

Lemma with_priority_app (p : Z) (l1 l2 : list PacmanRepo.t) :
  with_priority p (l1 ++ l2) = with_priority p l1 ++ with_priority p l2.
Proof. apply filter_app. Qed.

(** C7. The registry is kept sorted ascending by priority, and the sort run
    by every [add_repo] is stable: after any sequence of [add_repo] calls on
    a sorted registry, the registry is sorted, and the repositories of any
    one priority appear in the order in which they were added (after those
    that were there before). *)
Theorem add_repo_sorted_stable (rs : list PacmanRepo.t) (st : State) :
  StronglySorted priority_le (repos st) →
  StronglySorted priority_le (repos (add_repos rs st)) ∧
  ∀ p, with_priority p (repos (add_repos rs st)) =
       with_priority p (repos st ++ filter accepted rs).
Proof.
  revert st. induction rs as [|r rs IH]; intros st Hst; simpl.
  - split; [done|]. intros p. by rewrite app_nil_r.
  - destruct (decide (accepted r)) as [Hr|Hr].
    + rewrite (add_repo_accepted r st Hr). simpl.
      set (st1 := set_repos _ st).
      destruct (IH st1) as [Hsorted Hstable].
      { apply (sort_by_sorted PacmanRepo.priority). }
      split; [done|]. intros p. rewrite Hstable.
      rewrite filter_cons_True by done.
      rewrite !with_priority_app. simpl. unfold with_priority at 1.
      rewrite (sort_by_stable PacmanRepo.priority).
      fold (with_priority p (repos st ++ [r])).
      change (r :: filter accepted rs) with ([r] ++ filter accepted rs).
      by rewrite !with_priority_app, <- app_assoc.
    + rewrite (add_repo_rejected r st Hr). simpl.
      rewrite filter_cons_False by done. by apply IH.
Qed.


(** ** Config renderer *)

Lemma append_server_lines (lines : list string) (servers : list PacmanRepoServer.t) :
  foldl append_server lines servers =
  lines ++ (server ← servers; [server_comment server; server_directive server]).
Proof.
  revert lines. induction servers as [|s servers IH]; intros lines; simpl.
  - by rewrite app_nil_r.
  - rewrite IH. unfold append_server, server_comment, server_directive.
    destruct (PacmanRepoServer.mirror s); by rewrite <- !app_assoc.
Qed.

Lemma append_repo_section (rootfs : bool) (lines : list string) (repo : PacmanRepo.t) :
  append_repo rootfs lines repo = lines ++ repo_section rootfs repo.
Proof.
  unfold append_repo, repo_section.
  destruct rootfs, (PacmanRepo.mirrorlist repo) as [m|]; simpl;
    rewrite ?append_server_lines, <- ?app_assoc; done.
Qed.

Lemma append_repos_lines (rootfs : bool) (lines : list string)
    (rs : list PacmanRepo.t) :
  foldl (append_repo rootfs) lines rs = lines ++ (rs ≫= repo_section rootfs).
Proof.
  revert lines. induction rs as [|r rs IH]; intros lines; simpl.
  - by rewrite app_nil_r.
  - by rewrite IH, append_repo_section, <- app_assoc.
Qed.

Lemma server_lines_directives (servers : list PacmanRepoServer.t) :
  filter (λ l, is_server_line l = true)
         (server ← servers; [server_comment server; server_directive server])
  = server_directive <$> servers.
Proof.
  induction servers as [|s servers IH]; [done|].
  change (filter (λ l, is_server_line l = true)
            (server_comment s :: server_directive s ::
              (server ← servers; [server_comment server; server_directive server]))
          = server_directive s :: (server_directive <$> servers)).
  rewrite filter_cons_False, filter_cons_True, IH; [done| |].
  - apply startswith_app.
  - unfold server_comment. by destruct (PacmanRepoServer.mirror s).
Qed.

Lemma server_lines_no_include (servers : list PacmanRepoServer.t) :
  filter (λ l, is_include_line l = true)
         (server ← servers; [server_comment server; server_directive server])
  = [].
Proof.
  induction servers as [|s servers IH]; [done|].
  change (filter (λ l, is_include_line l = true)
            (server_comment s :: server_directive s ::
              (server ← servers; [server_comment server; server_directive server]))
          = []).
  rewrite !filter_cons_False, IH; [done|done|].
  unfold server_comment. by destruct (PacmanRepoServer.mirror s).
Qed.

(** C8. [append_repos] appends one section per repository of the registry.
    For a repository with a mirrorlist rendered with [rootfs] set, the
    section holds exactly one include directive, naming the mirrorlist file
    of the repository, and no server directive.  Otherwise it holds the
    header followed, for each server in order, by a comment line and its
    server directive; the comment is the one of an original server exactly
    when the server is not a mirror. *)
Theorem append_repos_sections (st : State) (lines : list string) (rootfs : bool) :
  append_repos st lines rootfs = lines ++ (repos st ≫= repo_section rootfs) ∧
  ∀ repo : PacmanRepo.t,
    let header := "[" +:+ Py.fmt (PacmanRepo.name repo) +:+ "]" +:+ nl in
    (if rootfs && bool_decide (PacmanRepo.mirrorlist repo ≠ None)
     then
       repo_section rootfs repo =
         [header; "Include = /etc/pacman.d/" +:+ Py.fmt (PacmanRepo.name repo)
                  +:+ "-mirrorlist" +:+ nl] ∧
       length (filter (λ l, is_include_line l = true) (repo_section rootfs repo)) = 1%nat ∧
       filter (λ l, is_server_line l = true) (repo_section rootfs repo) = []
     else
       repo_section rootfs repo =
         header :: (server ← PacmanRepo.servers repo;
                    [server_comment server; server_directive server]) ∧
       filter (λ l, is_server_line l = true) (repo_section rootfs repo) =
         server_directive <$> PacmanRepo.servers repo ∧
       filter (λ l, is_include_line l = true) (repo_section rootfs repo) = []) ∧
    ∀ server : PacmanRepoServer.t,
      server_comment server = "# Original Repo" +:+ nl ↔
      PacmanRepoServer.mirror server = false.
Proof.
  split; [apply append_repos_lines|].
  intros repo header. split.
  - unfold repo_section. fold header.
    destruct rootfs, (PacmanRepo.mirrorlist repo) as [m|]; simpl;
      try (split; [done|]);
      try (rewrite filter_cons_False by done);
      try (rewrite filter_cons_False by done);
      try (by rewrite server_lines_directives, server_lines_no_include).
    done.
  - intros server. unfold server_comment.
    destruct (PacmanRepoServer.mirror server); [|done].
    split; [|done]. intros Heq. discriminate.
Qed.

Section Renderer.
Context `{Collaborators}.

Lemma append_caches_lines (lines caches : list string) :
  foldl (λ lines cache, lines ++ ["CacheDir = " +:+ cache +:+ nl]) lines caches =
  lines ++ ((λ cache, "CacheDir = " +:+ cache +:+ nl) <$> caches).
Proof.
  revert lines. induction caches as [|c caches IH]; intros lines; simpl.
  - by rewrite app_nil_r.
  - by rewrite IH, <- app_assoc.
Qed.

Lemma append_config_lines (self : Pacman) (st : State) (lines : list string) :
  append_config self st lines = lines ++ config_lines self st.
Proof.
  unfold append_config, append_repos, config_lines.
  rewrite append_repos_lines, append_caches_lines.
  by rewrite <- !app_assoc.
Qed.



End Renderer.

(** ** Mirror resolution *)

Section MirrorResolver.
Context `{Collaborators}.

Lemma map_result_Forall2 {A B} (f : A → result B) (xs : list A) (ys : list B) :
  map_result f xs = Ok ys ↔ Forall2 (λ x y, f x = Ok y) xs ys.
Proof.
  revert ys. induction xs as [|x xs IH]; intros ys; simpl.
  - split; [intros [= <-]; constructor | by inversion 1].
  - split.
    + destruct (f x) as [y|e] eqn:Hfx; simpl; [|done].
      destruct (map_result f xs) as [ys'|e] eqn:Hxs; simpl; [|done].
      intros [= <-]. constructor; [done|]. by apply IH.
    + inversion 1 as [|? y ? ys' Hfx Hrest]; subst.
      apply IH in Hrest. rewrite Hfx. simpl. by rewrite Hrest.
Qed.

Lemma init_repos_mapping_servers mname originals pacman_repo mapping r :
  init_repos_mapping mname originals pacman_repo mapping = Ok r →
  PacmanRepo.name r = PacmanRepo.name pacman_repo ∧
  PacmanRepo.servers r =
    PacmanRepo.servers pacman_repo ++ mapping_servers (Some mname) originals mapping.
Proof.
  unfold init_repos_mapping, mapping_servers.
  destruct (m_original mapping) as [prefix|]; [|done].
  destruct (m_mirror mapping) as [mirror_prefix|]; [|done].
  intros [= <-]. revert pacman_repo.
  induction originals as [|original originals IH]; intros pacman_repo; simpl.
  - by rewrite app_nil_r.
  - destruct (IH (if Py.startswith original prefix
                  then PacmanRepo.add_server (Some mname)
                         (Some (mirror_prefix +:+
                                Py.drop (String.length prefix) original))
                         (Some true) pacman_repo
                  else pacman_repo)) as [-> ->].
    destruct (Py.startswith original prefix); simpl; [|done].
    by rewrite <- app_assoc.
Qed.

Lemma init_repos_mappings_servers mname originals maps pacman_repo r :
  fold_result (init_repos_mapping mname originals) pacman_repo maps = Ok r →
  PacmanRepo.name r = PacmanRepo.name pacman_repo ∧
  PacmanRepo.servers r =
    PacmanRepo.servers pacman_repo ++
    (maps ≫= mapping_servers (Some mname) originals).
Proof.
  revert pacman_repo. induction maps as [|mapping maps IH]; intros pacman_repo.
  - intros [= <-]. simpl. by rewrite app_nil_r.
  - cbn [fold_result]. 
    destruct (init_repos_mapping _ _ _ mapping) as [r1|e] eqn:Hm; [|done].
    intros Hr. apply IH in Hr as [-> ->].
    apply init_repos_mapping_servers in Hm as [-> ->].
    split; [done|]. by rewrite <- app_assoc.
Qed.

Lemma mirror_servers_cons mirror catalog originals :
  mirror_servers (mirror :: catalog) originals =
  (default [] (mr_repos mirror) ≫= mapping_servers (mr_name mirror) originals)
  ++ mirror_servers catalog originals.
Proof. reflexivity. Qed.

Lemma init_repos_mirrors_servers originals catalog pacman_repo r :
  fold_result (init_repos_mirror originals) pacman_repo catalog = Ok r →
  PacmanRepo.name r = PacmanRepo.name pacman_repo ∧
  PacmanRepo.servers r =
    PacmanRepo.servers pacman_repo ++ mirror_servers catalog originals.
Proof.
  revert pacman_repo. induction catalog as [|mirror catalog IH];
    intros pacman_repo.
  - intros [= <-]. unfold mirror_servers. simpl. by rewrite app_nil_r.
  - cbn [fold_result]. rewrite mirror_servers_cons.
    destruct (init_repos_mirror originals pacman_repo mirror) as [r1|e] eqn:Hm;
      [|done].
    intros Hr. apply IH in Hr as [-> ->].
    unfold init_repos_mirror in Hm.
    destruct (mr_name mirror) as [mname|]; [|done].
    destruct (mr_repos mirror) as [maps|]; [|done].
    apply init_repos_mappings_servers in Hm as [-> ->].
    split; [done|]. by rewrite <- app_assoc.
Qed.

Lemma add_originals_servers originals pacman_repo :
  let r := foldl (λ pacman_repo original,
              PacmanRepo.add_server None (Some original) (Some false) pacman_repo)
           pacman_repo originals in
  PacmanRepo.name r = PacmanRepo.name pacman_repo ∧
  PacmanRepo.servers r =
    PacmanRepo.servers pacman_repo ++ (original_server <$> originals).
Proof.
  revert pacman_repo. induction originals as [|o originals IH];
    intros pacman_repo; simpl.
  - by rewrite app_nil_r.
  - destruct (IH (PacmanRepo.add_server None (Some o) (Some false) pacman_repo))
      as [-> ->].
    simpl. by rewrite <- app_assoc.
Qed.

Lemma mirror_servers_marked catalog originals :
  Forall (λ s, PacmanRepoServer.mirror s = true) (mirror_servers catalog originals).
Proof.
  unfold mirror_servers, mapping_servers. apply Forall_forall. intros s Hs.
  apply list_elem_of_bind in Hs as (mirror & Hs & _).
  apply list_elem_of_bind in Hs as (mapping & Hs & _).
  apply list_elem_of_bind in Hs as (original & Hs & _).
  destruct (m_original mapping), (m_mirror mapping);
    try by apply elem_of_nil in Hs.
  destruct (Py.startswith _ _); [|by apply elem_of_nil in Hs].
  by apply list_elem_of_singleton in Hs as ->.
Qed.

Lemma mirror_servers_no_match catalog originals :
  (∀ mirror mapping prefix original,
     mirror ∈ catalog → mr_repos mirror = Some mapping →
     original ∈ originals → prefix ∈ mapping →
     ∀ p, m_original prefix = Some p → Py.startswith original p = false) →
  mirror_servers catalog originals = [].
Proof.
  intros Hno. destruct (mirror_servers catalog originals) as [|s l] eqn:Hs; [done|].
  assert (s ∈ mirror_servers catalog originals) as Hin by (rewrite Hs; left).
  unfold mirror_servers, mapping_servers in Hin.
  apply list_elem_of_bind in Hin as (mirror & Hin & Hmirror).
  apply list_elem_of_bind in Hin as (mapping & Hin & Hmapping).
  apply list_elem_of_bind in Hin as (original & Hin & Horiginal).
  destruct (mr_repos mirror) as [maps|] eqn:Hmaps;
    [|by apply elem_of_nil in Hmapping].
  destruct (m_original mapping) as [p|] eqn:Hp; [|by apply elem_of_nil in Hin].
  destruct (m_mirror mapping); [|by apply elem_of_nil in Hin].
  rewrite (Hno mirror maps mapping original Hmirror Hmaps Horiginal Hmapping p Hp)
    in Hin.
  by apply elem_of_nil in Hin.
Qed.

(** A declaration with neither key has no original URL. *)
Lemma init_repos_servers_none (decl : RepoDecl) :
  r_server decl = None → r_servers decl = None →
  init_repos_servers decl =
    Raise (ArchBuilderConfigError "no any original repo url found").
Proof. unfold init_repos_servers. by intros -> ->. Qed.

(** The [servers] key is never read: with the key set, the templates are the
    [server] string and its characters, or the lookup of [server] fails. *)
Lemma init_repos_servers_ignored (decl : RepoDecl) (l : list string) :
  r_servers decl = Some l →
  init_repos_servers decl =
    match r_server decl with
    | Some s => Ok (s :: Py.chars s)
    | None => Raise (KeyError "server")
    end.
Proof.
  unfold init_repos_servers. intros ->. by destruct (r_server decl).
Qed.

Lemma init_repos_servers_nonempty (decl : RepoDecl) (templates : list string) :
  init_repos_servers decl = Ok templates → templates ≠ [].
Proof.
  unfold init_repos_servers.
  destruct (match r_servers decl with Some _ => _ | None => _ end) as [l|];
    simpl; [|done].
  destruct l; simpl; [done|]. by intros [= <-].
Qed.

(** What [init_repos] builds from one declaration that it accepts. *)
Lemma init_repos_build_servers (self : Pacman) (decl : RepoDecl) (r : PacmanRepo.t) :
  init_repos_build self decl = Ok r →
  ∃ name templates originals,
    r_name decl = Some name ∧
    init_repos_servers decl = Ok templates ∧
    Forall2 (λ template original,
               resolve_simple_values template (tgt_arch self) name = Ok original)
            templates originals ∧
    originals ≠ [] ∧
    PacmanRepo.name r = Some name ∧
    PacmanRepo.servers r =
      mirror_servers (mirrors self) originals ++ (original_server <$> originals).
Proof.
  unfold init_repos_build.
  destruct (r_name decl) as [name|]; [|done].
  destruct (_ || _); [done|].
  destruct (_ && _); [done|].
  destruct (init_repos_servers decl) as [templates|e] eqn:Ht; simpl; [|done].
  destruct (map_result _ templates) as [originals|e] eqn:Ho; simpl; [|done].
  match goal with
  | |- context [fold_result _ ?r0 _] => set (repo0 := r0)
  end.
  destruct (fold_result _ repo0 (mirrors self)) as [r1|e] eqn:Hm; simpl; [|done].
  intros [= <-]. exists name, templates, originals.
  apply init_repos_mirrors_servers in Hm as [Hn1 Hs1].
  destruct (add_originals_servers originals r1) as [Hn2 Hs2].
  assert (Hrepo0 : PacmanRepo.servers repo0 = [] ∧ PacmanRepo.name repo0 = Some name).
  { subst repo0. by destruct (r_priority decl), (r_mirrorlist decl),
      (r_publickey decl), (r_keyid decl). }
  destruct Hrepo0 as [Hs0 Hn0].
  apply map_result_Forall2 in Ho.
  repeat split; try done.
  - intros ->. apply Forall2_nil_inv_r in Ho.
    by apply init_repos_servers_nonempty in Ht.
  - by rewrite Hn2, Hn1.
  - by rewrite Hs2, Hs1, Hs0.
Qed.

End MirrorResolver.

Section InitRepos.
Context `{Collaborators}.

Lemma for_each_app {A} (xs ys : list A) (body : A → M unit) (st : State) :
  for_each (xs ++ ys) body st =
  match for_each xs body st with
  | (Ok _, st') => for_each ys body st'
  | (Raise e, st') => (Raise e, st')
  end.
Proof.
  revert st. induction xs as [|x xs IH]; intros st; simpl; [done|].
  unfold bind. destruct (body x st) as [[[]|e] st1]; [apply IH | done].
Qed.

(** The body of the loop of [init_repos]. *)
Lemma init_repos_step (self : Pacman) (decl : RepoDecl) (st : State) :
  (let! pacman_repo := lift (init_repos_build self decl) in add_repo pacman_repo) st =
  match init_repos_build self decl with
  | Ok pacman_repo => add_repo pacman_repo st
  | Raise e => (Raise e, st)
  end.
Proof. unfold bind, lift. by destruct (init_repos_build self decl). Qed.

Lemma add_repo_result (repo : PacmanRepo.t) (st : State) :
  (add_repo repo st =
     (Ok tt, set_repos (Py.sort_by PacmanRepo.priority (repos st ++ [repo])) st)) ∨
  add_repo repo st = (Raise (ArchBuilderConfigError "bad repo"), st).
Proof.
  destruct (decide (accepted repo)) as [Ha|Ha];
    [left; by apply add_repo_accepted | right; by apply add_repo_rejected].
Qed.

(** [init_repos] touches nothing but the registry: no file, no external
    command. *)
Lemma init_repos_loop_frame (self : Pacman) (decls : list RepoDecl)
    (st st' : State) (r : result unit) :
  for_each decls (λ repo,
    let! pacman_repo := lift (init_repos_build self repo) in
    add_repo pacman_repo) st = (r, st') →
  fs st' = fs st ∧ calls st' = calls st ∧ caches st' = caches st.
Proof.
  revert st. induction decls as [|decl decls IH]; intros st; simpl.
  - by intros [= _ <-].
  - unfold bind at 1. rewrite init_repos_step.
    destruct (init_repos_build self decl) as [repo|e]; [|by intros [= _ <-]].
    destruct (add_repo_result repo st) as [-> | ->]; [|by intros [= _ <-]].
    intros Hrest. by apply IH in Hrest.
Qed.

Lemma init_repos_loop_built (self : Pacman) (decls : list RepoDecl)
    (st st' : State) :
  for_each decls (λ repo,
    let! pacman_repo := lift (init_repos_build self repo) in
    add_repo pacman_repo) st = (Ok tt, st') →
  ∀ repo, repo ∈ repos st' →
    repo ∈ repos st ∨ ∃ decl, decl ∈ decls ∧ init_repos_build self decl = Ok repo.
Proof.
  revert st. induction decls as [|decl decls IH]; intros st; simpl.
  - intros [= <-]. by left.
  - unfold bind at 1. rewrite init_repos_step.
    destruct (init_repos_build self decl) as [built|e] eqn:Hb; [|done].
    destruct (add_repo_result built st) as [-> | ->]; [|done].
    intros Hrest repo Hrepo.
    destruct (IH _ Hrest repo Hrepo) as [Hin|(d & Hd & Hbuilt)].
    + simpl in Hin. rewrite (sort_by_perm PacmanRepo.priority) in Hin.
      apply elem_of_app in Hin as [Hin|Hin]; [by left|].
      apply list_elem_of_singleton in Hin as ->.
      right. exists decl. split; [left | done].
    + right. exists d. split; [by right | done].
Qed.

(** C1. Every repository that [init_repos] adds to the registry comes from a
    declaration whose original URL templates resolve to the literal original
    URLs [originals], and its server list is: the mirror servers (one per
    catalog entry, mapping and matching original URL, in that nesting and in
    catalog order, all marked as mirrors), followed by one unnamed server
    per original URL, not marked as mirror, in the order of [originals];
    when no mapping matches an original URL the list is just the original
    servers. *)
Theorem init_repos_servers_order (self : Pacman) (st st' : State) :
  init_repos self st = (Ok tt, st') →
  ∀ repo, repo ∈ repos st' →
    repo ∈ repos st ∨
    ∃ decls decl name templates originals,
      config_repo self = Some decls ∧ decl ∈ decls ∧
      r_name decl = Some name ∧ PacmanRepo.name repo = Some name ∧
      init_repos_servers decl = Ok templates ∧
      Forall2 (λ template original,
                 resolve_simple_values template (tgt_arch self) name = Ok original)
              templates originals ∧
      originals ≠ [] ∧
      PacmanRepo.servers repo =
        mirror_servers (mirrors self) originals ++ (original_server <$> originals) ∧
      Forall (λ s, PacmanRepoServer.mirror s = true)
             (mirror_servers (mirrors self) originals) ∧
      Forall (λ s, PacmanRepoServer.mirror s = false ∧ PacmanRepoServer.name s = None)
             (original_server <$> originals) ∧
      ((∀ mirror maps mapping original,
          mirror ∈ mirrors self → mr_repos mirror = Some maps →
          original ∈ originals → mapping ∈ maps →
          ∀ prefix, m_original mapping = Some prefix →
                    Py.startswith original prefix = false) →
       PacmanRepo.servers repo = original_server <$> originals).
Proof.
  unfold init_repos. destruct (config_repo self) as [decls|] eqn:Hcfg; [|done].
  intros Hrun repo Hrepo.
  destruct (init_repos_loop_built self decls st st' Hrun repo Hrepo)
    as [Hin|(decl & Hdecl & Hbuilt)]; [by left|].
  right.
  apply init_repos_build_servers in Hbuilt
    as (name & templates & originals & Hname & Ht & Ho & Hne & Hrn & Hservers).
  exists decls, decl, name, templates, originals.
  repeat (split; [done|]).
  split; [apply mirror_servers_marked|].
  split; [by apply Forall_fmap, Forall_true|].
  intros Hno. rewrite Hservers.
  by rewrite (mirror_servers_no_match _ _ Hno).
Qed.

Lemma init_repos_build_publickey (self : Pacman) (decl : RepoDecl) :
  publickey_without_keyid decl →
  ∃ msg, init_repos_build self decl = Raise (ArchBuilderConfigError msg).
Proof.
  intros [Hpk Hid]. unfold init_repos_build.
  destruct (r_name decl) as [name|]; [|by eexists].
  destruct (_ || _); [by eexists|].
  rewrite bool_decide_true, bool_decide_true by done. by eexists.
Qed.

Lemma init_repos_loop_config_error (self : Pacman) (decls : list RepoDecl)
    (st st' : State) (r : result unit) :
  Forall (λ d, ∀ e, init_repos_build self d = Raise e → is_config_error e) decls →
  for_each decls (λ repo,
    let! pacman_repo := lift (init_repos_build self repo) in
    add_repo pacman_repo) st = (r, st') →
  r = Ok tt ∨ ∃ msg, r = Raise (ArchBuilderConfigError msg).
Proof.
  intros Hdecls. revert st.
  induction Hdecls as [|decl decls Hdecl _ IH]; intros st; simpl.
  - intros [= <- _]. by left.
  - unfold bind at 1. rewrite init_repos_step.
    destruct (init_repos_build self decl) as [repo|e] eqn:Hb.
    + destruct (add_repo_result repo st) as [-> | ->]; [apply IH|].
      intros [= <- _]. right. by eexists.
    + intros [= <- _]. right. destruct (Hdecl e eq_refl) as [msg ->]. by eexists.
Qed.

(** C9. When a declaration sets [publickey] but not [keyid], [init_repos]
    raises a configuration error, and until then it has run no external
    command and touched no file: it fails at that declaration, unless an
    earlier declaration has already failed with a configuration error of its
    own (an earlier failure of another kind is excluded: the template
    resolver may raise, and so does line 333 for a declaration with a
    [servers] key and no [server] key). *)
Theorem init_repos_publickey_without_keyid (self : Pacman) (st : State)
    (before after : list RepoDecl) (decl : RepoDecl) :
  config_repo self = Some (before ++ decl :: after) →
  publickey_without_keyid decl →
  Forall (λ d, ∀ e, init_repos_build self d = Raise e → is_config_error e) before →
  ∃ msg st',
    init_repos self st = (Raise (ArchBuilderConfigError msg), st') ∧
    calls st' = calls st ∧ fs st' = fs st.
Proof.
  intros Hcfg Hdecl Hbefore. unfold init_repos. rewrite Hcfg, for_each_app.
  destruct (for_each before _ st) as [r st1] eqn:Hrun.
  destruct (init_repos_loop_frame _ _ _ _ _ Hrun) as (Hfs & Hcalls & _).
  destruct (init_repos_loop_config_error _ _ _ _ _ Hbefore Hrun)
    as [-> | [msg ->]]; [|by exists msg, st1].
  destruct (init_repos_build_publickey self decl Hdecl) as [msg Hmsg].
  simpl. unfold bind at 1. rewrite init_repos_step, Hmsg. by exists msg, st1.
Qed.

End InitRepos.

(** ** Keyring trust *)

Section Keyring.
Context `{Collaborators}.



Lemma remove_tree_inside (target : string) (m : gmap string node) (p : string) :
  p = target ∨ under target p = true → remove_tree target m !! p = None.
Proof.
  intros Hin. unfold remove_tree. apply map_lookup_filter_None. right.
  intros x _ [Hne Hu]. simpl in *. destruct Hin; congruence.
Qed.






(** The reset, lines 524-526: it either succeeds and leaves [reset_fs], or
    raises, having changed nothing or removed the old directory. *)
Lemma trust_keyring_reset_permitted (target : string) (st : State) :
  reset_permitted target (fs st) = true →
  trust_keyring_reset target st = (Ok tt, set_fs (reset_fs target (fs st)) st).
Proof.
  unfold reset_permitted, trust_keyring_reset, reset_fs, bind, get, os_path_exists.
  destruct (fs st !! target) as [[|data mode uid gid]|] eqn:Ht; [|done|].
  - intros [Hp1 Hp2]%andb_true_iff. rewrite bool_decide_true by eauto.
    unfold rmtree. rewrite Ht, Hp1. unfold makedirs. simpl.
    rewrite remove_tree_inside by (by left). by rewrite Hp2.
  - intros Hp. rewrite bool_decide_false by (by intros [? ?]).
    unfold ret, makedirs. by rewrite Ht, Hp.
Qed.


Lemma key_names_app (l1 l2 : list string) :
  key_names (l1 ++ l2) = key_names l1 ++ key_names l2.
Proof. unfold key_names. by rewrite filter_app, fmap_app. Qed.

Lemma key_names_one (fn : string) :
  key_names [fn] = if Py.endswith fn key_ext then [Py.drop_last 4 fn] else [].
Proof.
  unfold key_names. rewrite filter_cons.
  destruct (Py.endswith fn key_ext); by case_decide.
Qed.

(** The loop body, lines 535-553, for one archive entry. *)
Lemma trust_keyring_entry_member (target keyring : string) (names : list string)
    (file : ArchiveEntry) (st : State) :
  trust_keyring_entry target keyring names file st =
  match keyring_member keyring file with
  | None => (Ok names, st)
  | Some fn =>
      let dest := Py.path_join target fn in
      if bool_decide (fs st !! dest ≠ Some Dir) && os_permits (fs st) dest
      then (Ok (names ++ key_names [fn]),
            set_fs (<[dest := entry_node file]> (fs st)) st)
      else (Raise (OSError dest), st)
  end.
Proof.
  unfold trust_keyring_entry, keyring_member. cbv zeta.
  generalize (Py.drop (String.length keyring) (pathname file)). intros fn.
  destruct (Py.startswith (pathname file) keyring); [|done].
  change (negb true) with false. cbv iota.
  destruct fn as [|c fn'] eqn:Hfn; [done|]. rewrite <- Hfn.
  rewrite bool_decide_false by (rewrite Hfn; done).
  replace (String.length fn <=? 0)%nat with false by (by rewrite Hfn).
  rewrite key_names_one. unfold bind, write_file, entry_node.
  fold key_ext.
  destruct (fs st !! Py.path_join target fn) as [[|]|] eqn:Hd; simpl.
  - done.
  - destruct (os_permits _ _); [|done]. unfold ret.
    by destruct (Py.endswith fn key_ext); rewrite ?app_nil_r.
  - destruct (os_permits _ _); [|done]. unfold ret.
    by destruct (Py.endswith fn key_ext); rewrite ?app_nil_r.
Qed.

Lemma keyring_members_cons (keyring : string) (file : ArchiveEntry)
    (archive : list ArchiveEntry) :
  keyring_members keyring (file :: archive) =
  match keyring_member keyring file with
  | Some fn => (fn, file) :: keyring_members keyring archive
  | None => keyring_members keyring archive
  end.
Proof. unfold keyring_members. simpl. by destruct (keyring_member keyring file). Qed.

Lemma set_fs_id (st : State) : set_fs (fs st) st = st.
Proof. by destruct st. Qed.

(** The archive loop when the operating system accepts every write. *)
Lemma trust_keyring_entries_ok (target keyring : string)
    (archive : list ArchiveEntry) (names : list string) (st : State) :
  writes_ok target (fs st) (keyring_members keyring archive) = true →
  trust_keyring_entries target keyring names archive st =
    (Ok (names ++ key_names (keyring_members keyring archive).*1),
     set_fs (extract_fs target (fs st) (keyring_members keyring archive)) st).
Proof.
  revert names st. induction archive as [|file archive IH]; intros names st.
  - intros _. simpl. unfold ret. by rewrite app_nil_r, set_fs_id.
  - rewrite keyring_members_cons. cbn [trust_keyring_entries]. unfold bind.
    rewrite trust_keyring_entry_member.
    destruct (keyring_member keyring file) as [fn|]; [|apply IH].
    cbn [writes_ok]. intros [Hw Hrest]%andb_true_iff. cbn zeta. rewrite Hw.
    rewrite IH by done. cbn [fmap list_fmap fst]. simpl.
    change (fn :: (keyring_members keyring archive).*1)
      with ([fn] ++ (keyring_members keyring archive).*1).
    by rewrite key_names_app, app_assoc.
Qed.



Lemma scratch_dir_component (self : Pacman) :
  Py.endswith (scratch_dir self) "/" = false ∧ scratch_dir self ≠ "".
Proof. by apply path_join_component. Qed.



(** [pouplate_keys] as [trust_keyring_pkg] calls it. *)
Lemma pouplate_keys_run (self : Pacman) (names : list string) (st : State) :
  gpgcheck self = true →
  let cmd := populate_command self (scratch_dir self) names in
  pouplate_keys self names (scratch_dir self) st =
    (if bool_decide (exit_status (fs st) cmd ≠ 0)
     then Raise (OSError ("pacman-key failed with " +:+ pretty (exit_status (fs st) cmd)))
     else Ok tt,
     add_call cmd st).
Proof.
  intros Hgpg cmd. unfold pouplate_keys, pacman_key. rewrite Hgpg.
  destruct (scratch_dir_component self) as [_ Hne].
  destruct (String.eqb_spec (scratch_dir self) ""); [done|].
  cbn [negb]. unfold bind, run_external. cbn [app].
  fold cmd. by destruct (bool_decide _).
Qed.

(** A run of [trust_keyring_pkg] in which nothing fails before the key tool
    is called. *)
Lemma trust_keyring_pkg_run (self : Pacman) (pkg : Package) (st : State)
    (path data : string) (mode uid gid : Z) (archive : list ArchiveEntry) :
  gpgcheck self = true →
  find_in_caches (fs st) (caches st) (pkg_filename pkg) = Some path →
  reset_permitted (scratch_dir self) (fs st) = true →
  reset_fs (scratch_dir self) (fs st) !! path = Some (File data mode uid gid) →
  file_reader data = Ok archive →
  writes_ok (scratch_dir self) (reset_fs (scratch_dir self) (fs st))
            (keyring_members keyring_prefix archive) = true →
  let m := extract_fs (scratch_dir self) (reset_fs (scratch_dir self) (fs st))
                      (keyring_members keyring_prefix archive) in
  let cmd := populate_command self (scratch_dir self)
               (key_names (keyring_members keyring_prefix archive).*1) in
  trust_keyring_pkg self pkg st =
    (if bool_decide (exit_status m cmd ≠ 0)
     then Raise (OSError ("pacman-key failed with " +:+ pretty (exit_status m cmd)))
     else Ok tt,
     add_call cmd (set_fs m st)).
Proof.
  intros Hgpg Hfind Hreset Hpath Hread Hwrites m cmd.
  unfold trust_keyring_pkg. rewrite Hgpg. cbn [negb]. cbv zeta.
  fold (scratch_dir self). fold keyring_prefix.
  unfold bind at 1. unfold find_package_file, bind at 1, get, ret.
  rewrite Hfind. unfold bind at 1.
  rewrite trust_keyring_reset_permitted by done.
  unfold bind at 1. unfold open_archive, bind at 1, get. cbn [fs set_fs].
  rewrite Hpath. unfold lift. rewrite Hread.
  unfold bind at 1. rewrite trust_keyring_entries_ok by done.
  cbn [fs set_fs app]. rewrite pouplate_keys_run by done. done.
Qed.




Lemma keyring_member_pathname (keyring : string) (file : ArchiveEntry) (fn : string) :
  keyring_member keyring file = Some fn → pathname file = keyring +:+ fn.
Proof.
  unfold keyring_member.
  destruct (Py.startswith (pathname file) keyring) eqn:Hs; [|done].
  apply startswith_spec in Hs as [rest Hrest]. rewrite Hrest, drop_app.
  case_bool_decide; [done|]. by intros [= ->].
Qed.

Lemma keyring_members_elem (keyring : string) (archive : list ArchiveEntry)
    (fn : string) :
  fn ∈ (keyring_members keyring archive).*1 ↔
  ∃ file, file ∈ archive ∧ keyring_member keyring file = Some fn.
Proof.
  unfold keyring_members. rewrite list_elem_of_fmap. split.
  - intros ([fn' file] & -> & Hin).
    apply list_elem_of_omap in Hin as (file' & Hfile & Hsome).
    destruct (keyring_member keyring file') as [fn''|] eqn:Hfn; [|done].
    simpl in Hsome. injection Hsome as -> ->. eauto.
  - intros (file & Hfile & Hfn). exists (fn, file). split; [done|].
    apply list_elem_of_omap. exists file. split; [done|]. by rewrite Hfn.
Qed.

Lemma keyring_members_NoDup (keyring : string) (archive : list ArchiveEntry) :
  NoDup (pathname <$> archive) → NoDup (keyring_members keyring archive).*1.
Proof.
  induction archive as [|file archive IH]; [constructor|].
  rewrite fmap_cons, NoDup_cons. intros [Hnotin Hrest].
  rewrite keyring_members_cons.
  destruct (keyring_member keyring file) as [fn|] eqn:Hfn; [|by apply IH].
  rewrite fmap_cons, NoDup_cons. cbn [fst]. split; [|by apply IH].
  intros (file' & Hfile' & Hfn')%keyring_members_elem. apply Hnotin.
  apply keyring_member_pathname in Hfn, Hfn'.
  apply list_elem_of_fmap. exists file'. split; [congruence | done].
Qed.

Lemma key_names_elem (fns : list string) (name : string) :
  name ∈ key_names fns ↔ name +:+ key_ext ∈ fns.
Proof.
  unfold key_names. rewrite list_elem_of_fmap. split.
  - intros (fn & -> & [Hend Hin]%list_elem_of_filter).
    apply endswith_spec in Hend as [stem ->]. by rewrite drop_last_app.
  - intros Hin. exists (name +:+ key_ext). rewrite drop_last_app. split; [done|].
    apply list_elem_of_filter. split; [|done]. apply endswith_spec. eauto.
Qed.

Lemma key_names_NoDup (fns : list string) : NoDup fns → NoDup (key_names fns).
Proof.
  intros Hfns. unfold key_names. apply NoDup_fmap_2_strong.
  - intros fn1 fn2 [Hend1 _]%list_elem_of_filter [Hend2 _]%list_elem_of_filter.
    apply endswith_spec in Hend1 as [stem1 ->].
    apply endswith_spec in Hend2 as [stem2 ->].
    rewrite !drop_last_app. by intros ->.
  - by apply NoDup_filter.
Qed.

(** C5. When nothing fails before the key tool is called,
    [trust_keyring_pkg] hands it the identifiers [key_names] of the
    extracted filenames, in archive order: a name is among them exactly when
    the archive has an extracted entry whose remaining filename is that name
    followed by the key-file extension.  They are pairwise distinct when no
    two entries of the archive have the same pathname. *)
Theorem trust_keyring_pkg_names (self : Pacman) (pkg : Package) (st : State)
    (path data : string) (mode uid gid : Z) (archive : list ArchiveEntry) :
  gpgcheck self = true →
  find_in_caches (fs st) (caches st) (pkg_filename pkg) = Some path →
  reset_permitted (scratch_dir self) (fs st) = true →
  reset_fs (scratch_dir self) (fs st) !! path = Some (File data mode uid gid) →
  file_reader data = Ok archive →
  writes_ok (scratch_dir self) (reset_fs (scratch_dir self) (fs st))
            (keyring_members keyring_prefix archive) = true →
  let names := key_names (keyring_members keyring_prefix archive).*1 in
  ∃ r st',
    trust_keyring_pkg self pkg st = (r, st') ∧
    calls st' = calls st ++ [populate_command self (scratch_dir self) names] ∧
    (∀ name, name ∈ names ↔
       ∃ file, file ∈ archive ∧
               keyring_member keyring_prefix file = Some (name +:+ key_ext)) ∧
    (NoDup (pathname <$> archive) → NoDup names).
Proof.
  intros Hgpg Hfind Hreset Hpath Hread Hwrites names.
  eexists _, _. split; [by eapply trust_keyring_pkg_run|].
  split; [done|]. split.
  - intros name. subst names. by rewrite key_names_elem, keyring_members_elem.
  - intros Hnodup. by apply key_names_NoDup, keyring_members_NoDup.
Qed.


End Keyring.

(** ** Package lookup *)

Section Lookup.
Context `{Collaborators}.

Lemma dict_get_app_fresh {V} (d1 d2 : list (string * V)) (k : string) :
  k ∉ d1.*1 → dict_get (d1 ++ d2) k = dict_get d2 k.
Proof.
  induction d1 as [|[k' v] d1 IH]; [done|]. simpl.
  intros Hk. apply not_elem_of_cons in Hk as [Hne Hk].
  destruct (String.eqb_spec k' k); [congruence | by apply IH].
Qed.

Lemma lookup_in_databases_first (seen rest : list (string * DB)) (name : string) :
  NoDup (seen ++ rest).*1 →
  lookup_in_databases (seen ++ rest) rest.*1 name =
  match first_package rest.*2 name with
  | Some pkg => Ok [pkg]
  | None => Raise (ValueError ("package " +:+ name +:+ " not found"))
  end.
Proof.
  revert seen. induction rest as [|[dbn db] rest IH]; intros seen Hnodup; [done|].
  cbn [fmap list_fmap fst snd lookup_in_databases first_package].
  rewrite dict_get_app_fresh.
  2:{ rewrite fmap_app, fmap_cons in Hnodup.
      apply NoDup_app in Hnodup as (_ & Hdisj & _).
      intros Hin. apply (Hdisj _ Hin). left. }
  simpl. rewrite String.eqb_refl.
  destruct (get_pkg db name) as [pkg|]; [done|].
  replace (seen ++ (dbn, db) :: rest) with ((seen ++ [(dbn, db)]) ++ rest)
    by (by rewrite <- app_assoc).
  apply IH. by rewrite <- app_assoc.
Qed.

Lemma first_package_Some (dbs : list DB) (name : string) (pkg : Package) :
  first_package dbs name = Some pkg ↔
  ∃ earlier db later,
    dbs = earlier ++ db :: later ∧
    Forall (λ db', get_pkg db' name = None) earlier ∧
    get_pkg db name = Some pkg.
Proof.
  induction dbs as [|db dbs IH]; simpl.
  - split; [done|]. intros (earlier & db & later & Heq & _).
    by destruct earlier.
  - destruct (get_pkg db name) as [pkg'|] eqn:Hdb.
    + split.
      * intros [= ->]. exists [], db, dbs. by repeat split.
      * intros ([|db' earlier] & db'' & later & Heq & Hnone & Hsome).
        -- injection Heq as <- _. congruence.
        -- injection Heq as <- _. apply Forall_cons in Hnone as [Hnone _].
           congruence.
    + rewrite IH. split.
      * intros (earlier & db' & later & -> & Hnone & Hsome).
        exists (db :: earlier), db', later. repeat split; [|done].
        by constructor.
      * intros ([|db' earlier] & db'' & later & Heq & Hnone & Hsome).
        -- injection Heq as <- _. congruence.
        -- injection Heq as <- ->. apply Forall_cons in Hnone as [_ Hnone].
           by exists earlier, db'', later.
Qed.

(** C10. For a bare package name (no slash, not an archive file name) a
    non-empty group wins over a package of the same name: the members of
    the group are returned whatever the databases hold under that name.
    Only when the group lookup is empty are the databases searched, in
    registration order, and the first package of that name is returned
    alone; when there is none either, the lookup raises [ValueError]. *)
Theorem lookup_package_group_first (databases : list (string * DB)) (name : string) :
  Py.contains "/" name = false →
  Py.contains ".pkg.tar." name = false →
  NoDup databases.*1 →
  lookup_package databases name =
    match find_grp_pkgs databases.*2 name with
    | [] =>
        match first_package databases.*2 name with
        | Some pkg => Ok [pkg]
        | None => Raise (ValueError ("package " +:+ name +:+ " not found"))
        end
    | members => Ok members
    end ∧
  ∀ pkg, first_package databases.*2 name = Some pkg ↔
    ∃ earlier db later,
      databases.*2 = earlier ++ db :: later ∧
      Forall (λ db', get_pkg db' name = None) earlier ∧
      get_pkg db name = Some pkg.
Proof.
  intros Hslash Harchive Hnodup. split; [|intros pkg; apply first_package_Some].
  unfold lookup_package. rewrite Harchive, (split_no_separator "/" name Hslash).
  destruct (find_grp_pkgs databases.*2 name) as [|member members]; [|done].
  cbn [length Nat.ltb Nat.leb].
  by apply (lookup_in_databases_first [] databases).
Qed.

End Lookup.

(** ** The registry, further *)

(** X1. [add_repo] neither drops nor duplicates: when it accepts a
    repository (a non-empty name and at least one server) the new registry
    is a rearrangement of the old one with that repository added, in
    ascending priority order whatever the old order was; when it rejects the
    repository it raises the configuration error and leaves the state as it
    was.  Either way the file system, the caches and the command log are not
    touched. *)
Theorem add_repo_permutation (repo : PacmanRepo.t) (st : State) :
  (if decide (accepted repo)
   then (add_repo repo st).1 = Ok tt ∧
        repos (add_repo repo st).2 ≡ₚ repo :: repos st ∧
        StronglySorted priority_le (repos (add_repo repo st).2)
   else add_repo repo st = (Raise (ArchBuilderConfigError "bad repo"), st)) ∧
  fs (add_repo repo st).2 = fs st ∧
  caches (add_repo repo st).2 = caches st ∧
  calls (add_repo repo st).2 = calls st.
Proof.
  destruct (decide (accepted repo)) as [Ha|Ha].
  - rewrite (add_repo_accepted repo st Ha). cbn [fst snd repos set_repos].
    repeat split.
    + rewrite (sort_by_perm PacmanRepo.priority).
      by rewrite Permutation_app_comm.
    + apply (sort_by_sorted PacmanRepo.priority).
  - by rewrite (add_repo_rejected repo st Ha).
Qed.

Section InitReposFurther.
Context `{Collaborators}.

Lemma for_each_ext {A} (xs : list A) (body1 body2 : A → M unit) (st : State) :
  (∀ x st0, body1 x st0 = body2 x st0) →
  for_each xs body1 st = for_each xs body2 st.
Proof.
  intros Hext. revert st. induction xs as [|x xs IH]; intros st; [done|].
  simpl. unfold bind. rewrite Hext.
  destruct (body2 x st) as [[[]|e] st0]; [apply IH | done].
Qed.

Lemma init_repos_mapping_meta mname originals pacman_repo mapping r :
  init_repos_mapping mname originals pacman_repo mapping = Ok r →
  repo_meta r = repo_meta pacman_repo.
Proof.
  unfold init_repos_mapping.
  destruct (m_original mapping) as [prefix|]; [|done].
  destruct (m_mirror mapping) as [mirror_prefix|]; [|done].
  intros [= <-]. revert pacman_repo.
  induction originals as [|original originals IH]; intros pacman_repo; [done|].
  simpl. rewrite IH. by destruct (Py.startswith original prefix).
Qed.

Lemma init_repos_mirrors_meta originals catalog pacman_repo r :
  fold_result (init_repos_mirror originals) pacman_repo catalog = Ok r →
  repo_meta r = repo_meta pacman_repo.
Proof.
  revert pacman_repo. induction catalog as [|mirror catalog IH];
    intros pacman_repo; [by intros [= <-]|].
  cbn [fold_result].
  destruct (init_repos_mirror originals pacman_repo mirror) as [r1|e] eqn:Hm;
    [|done].
  intros Hr. rewrite (IH _ Hr). clear Hr IH.
  unfold init_repos_mirror in Hm.
  destruct (mr_name mirror) as [mname|]; [|done].
  destruct (mr_repos mirror) as [maps|]; [|done].
  revert pacman_repo Hm. induction maps as [|mapping maps IH];
    intros pacman_repo; [by intros [= <-]|].
  cbn [fold_result].
  destruct (init_repos_mapping mname originals pacman_repo mapping)
    as [r2|e] eqn:Hmap; [|done].
  intros Hr. rewrite (IH _ Hr). by eapply init_repos_mapping_meta.
Qed.

Lemma add_originals_meta originals pacman_repo :
  repo_meta (foldl (λ pacman_repo original,
               PacmanRepo.add_server None (Some original) (Some false) pacman_repo)
             pacman_repo originals) = repo_meta pacman_repo.
Proof.
  revert pacman_repo. induction originals as [|o originals IH];
    intros pacman_repo; [done|]. simpl. by rewrite IH.
Qed.

(** The attributes [init_repos] gives the repository of a declaration. *)
Lemma init_repos_build_meta (self : Pacman) (decl : RepoDecl) (r : PacmanRepo.t) :
  init_repos_build self decl = Ok r →
  ∃ name,
    r_name decl = Some name ∧ name ≠ "local" ∧ Py.contains "/" name = false ∧
    (r_publickey decl ≠ None → r_keyid decl ≠ None) ∧
    repo_meta r = (Some name, default 10000 (r_priority decl), r_mirrorlist decl,
                   r_publickey decl, r_keyid decl).
Proof.
  unfold init_repos_build.
  destruct (r_name decl) as [name|]; [|done].
  destruct (String.eqb_spec name "local") as [|Hlocal]; [done|].
  destruct (Py.contains "/" name) eqn:Hslash; [done|]. cbn [orb].
  destruct (bool_decide (r_publickey decl ≠ None) &&
            bool_decide (r_keyid decl = None)) eqn:Hkey; [done|].
  destruct (init_repos_servers decl) as [templates|e]; simpl; [|done].
  destruct (map_result _ templates) as [originals|e]; simpl; [|done].
  match goal with
  | |- context [fold_result _ ?r0 _] => set (repo0 := r0)
  end.
  destruct (fold_result _ repo0 (mirrors self)) as [r1|e] eqn:Hm; simpl; [|done].
  intros [= <-]. exists name. repeat split; try done.
  - intros Hpk Hid. apply andb_false_iff in Hkey as [Hk|Hk].
    + by apply bool_decide_eq_false in Hk.
    + by apply bool_decide_eq_false in Hk.
  - rewrite add_originals_meta, (init_repos_mirrors_meta _ _ _ _ Hm).
    subst repo0. by destruct (r_priority decl), (r_mirrorlist decl),
      (r_publickey decl), (r_keyid decl).
Qed.

(** The loop of [init_repos]: one accepted repository per declaration. *)
Lemma init_repos_loop_each (self : Pacman) (decls : list RepoDecl)
    (st st' : State) :
  for_each decls (λ repo,
    let! pacman_repo := lift (init_repos_build self repo) in
    add_repo pacman_repo) st = (Ok tt, st') →
  ∃ built,
    Forall2 (λ decl r, init_repos_build self decl = Ok r ∧ accepted r) decls built ∧
    repos st' ≡ₚ repos st ++ built ∧
    (StronglySorted priority_le (repos st) →
     StronglySorted priority_le (repos st')).
Proof.
  revert st. induction decls as [|decl decls IH]; intros st; simpl.
  - intros [= <-]. exists []. by rewrite app_nil_r.
  - unfold bind at 1. rewrite init_repos_step.
    destruct (init_repos_build self decl) as [r|e] eqn:Hb; [|done].
    destruct (decide (accepted r)) as [Ha|Ha];
      [rewrite (add_repo_accepted r st Ha) | by rewrite (add_repo_rejected r st Ha)].
    intros Hrest. apply IH in Hrest as (built & Hbuilt & Hperm & Hsorted).
    exists (r :: built). split; [by constructor|]. split.
    + rewrite Hperm. cbn [repos set_repos].
      rewrite (sort_by_perm PacmanRepo.priority), <- app_assoc. done.
    + intros _. apply Hsorted. apply (sort_by_sorted PacmanRepo.priority).
Qed.

(** X2. Every repository that [init_repos] registers is usable: its name is
    the declared one, not empty, not [local] and without a slash; it has at
    least one server and its last server is an original one; its priority is
    the declared one or 10000; mirrorlist, public key and key id are the
    declared ones, and a public key never comes without a key id. *)
Theorem init_repos_registers_usable (self : Pacman) (st st' : State) :
  init_repos self st = (Ok tt, st') →
  ∀ repo, repo ∈ repos st' →
    repo ∈ repos st ∨
    ∃ decls decl name front original,
      config_repo self = Some decls ∧ decl ∈ decls ∧
      r_name decl = Some name ∧ name_usable name ∧
      repo_meta repo = (Some name, default 10000 (r_priority decl),
                        r_mirrorlist decl, r_publickey decl, r_keyid decl) ∧
      (PacmanRepo.publickey repo ≠ None → PacmanRepo.keyid repo ≠ None) ∧
      PacmanRepo.servers repo = front ++ [original_server original].
Proof.
  unfold init_repos. destruct (config_repo self) as [decls|] eqn:Hcfg; [|done].
  intros Hrun repo Hrepo.
  apply init_repos_loop_each in Hrun as (built & Hbuilt & Hperm & _).
  rewrite Hperm in Hrepo. apply elem_of_app in Hrepo as [Hin|Hin]; [by left|].
  right. apply list_elem_of_lookup in Hin as [i Hi].
  destruct (Forall2_lookup_r _ _ _ _ _ Hbuilt Hi) as (decl & Hdecl & Hb & Ha).
  pose proof (init_repos_build_meta _ _ _ Hb)
    as (name & Hname & Hlocal & Hslash & Hkey & Hmeta).
  apply init_repos_build_servers in Hb
    as (name' & templates & originals & Hname' & _ & _ & Hne & Hrn & Hservers).
  destruct (exists_last Hne) as (front & original & ->).
  exists decls, decl, name, (mirror_servers (mirrors self) (front ++ [original])
                             ++ (original_server <$> front)), original.
  split; [done|]. split; [by eapply list_elem_of_lookup_2|].
  split; [done|]. split.
  { repeat split; try done. intros ->. destruct Ha as (_ & Hempty & _).
    apply Hempty. rewrite Hrn. congruence. }
  split; [done|]. split.
  - unfold repo_meta in Hmeta. injection Hmeta as _ _ _ -> ->. done.
  - rewrite Hservers, fmap_app, <- app_assoc. done.
Qed.

(** X3. [init_repos] registers exactly one repository per declaration, and
    keeps a sorted registry sorted: after it has returned, the registry is a
    rearrangement of the old registry and the repositories built from the
    declarations, one each, in ascending priority order. *)
Theorem init_repos_one_per_declaration (self : Pacman) (decls : list RepoDecl)
    (st st' : State) :
  config_repo self = Some decls →
  StronglySorted priority_le (repos st) →
  init_repos self st = (Ok tt, st') →
  ∃ built,
    Forall2 (λ decl r, init_repos_build self decl = Ok r) decls built ∧
    repos st' ≡ₚ repos st ++ built ∧
    length (repos st') = (length (repos st) + length decls)%nat ∧
    StronglySorted priority_le (repos st').
Proof.
  intros Hcfg Hsorted. unfold init_repos. rewrite Hcfg. intros Hrun.
  apply init_repos_loop_each in Hrun as (built & Hbuilt & Hperm & Hkeep).
  exists built. split.
  { eapply Forall2_impl; [exact Hbuilt|]. by intros d r [? _]. }
  split; [done|]. split; [|by apply Hkeep].
  rewrite Hperm, List.length_app. by rewrite (Forall2_length _ _ _ Hbuilt).
Qed.

(** X4. [init_repos] is not transactional: when a declaration fails, the
    exception is raised with the repositories of all earlier declarations
    registered, exactly as if the configuration had ended before the failing
    declaration. *)
Theorem init_repos_keeps_earlier (self : Pacman) (st st1 : State)
    (before after : list RepoDecl) (decl : RepoDecl) (e : exn) :
  config_repo self = Some (before ++ decl :: after) →
  init_repos (with_declarations before self) st = (Ok tt, st1) →
  init_repos_build self decl = Raise e →
  init_repos self st = (Raise e, st1).
Proof.
  intros Hcfg Hbefore Hdecl. unfold init_repos in *. rewrite Hcfg, for_each_app.
  cbn [config_repo with_declarations] in Hbefore.
  assert (Hsame : ∀ d, init_repos_build (with_declarations before self) d
                       = init_repos_build self d) by done.
  erewrite (for_each_ext before) in Hbefore; [rewrite Hbefore|].
  - simpl. unfold bind at 1. by rewrite init_repos_step, Hdecl.
  - intros d st0. by rewrite !init_repos_step, Hsame.
Qed.

End InitReposFurther.

Section MirrorResolverFurther.
Context `{Collaborators}.

Lemma init_repos_mapping_well_formed mname originals pacman_repo mapping :
  match init_repos_mapping mname originals pacman_repo mapping with
  | Ok _ => mapping_well_formed mapping
  | Raise e => is_config_error e ∧ ¬ mapping_well_formed mapping
  end.
Proof.
  unfold init_repos_mapping, mapping_well_formed, is_config_error.
  destruct (m_original mapping); [|split; [by eexists | by intros [? _]]].
  destruct (m_mirror mapping); [done | split; [by eexists | by intros [_ ?]]].
Qed.

Lemma init_repos_mappings_well_formed mname originals maps pacman_repo :
  match fold_result (init_repos_mapping mname originals) pacman_repo maps with
  | Ok _ => Forall mapping_well_formed maps
  | Raise e => is_config_error e ∧ ¬ Forall mapping_well_formed maps
  end.
Proof.
  revert pacman_repo. induction maps as [|mapping maps IH]; intros pacman_repo.
  - simpl. constructor.
  - cbn [fold_result].
    pose proof (init_repos_mapping_well_formed mname originals pacman_repo mapping)
      as Hm.
    destruct (init_repos_mapping mname originals pacman_repo mapping) as [r|e].
    + simpl. specialize (IH r).
      destruct (fold_result _ r maps) as [r'|e].
      * by constructor.
      * destruct IH as [He Hnot]. split; [done|].
        intros Hall. apply Forall_cons in Hall as [_ Hall]. by apply Hnot.
    + simpl. destruct Hm as [He Hnot]. split; [done|].
      intros Hall. apply Forall_cons in Hall as [Hall _]. by apply Hnot.
Qed.

Lemma init_repos_mirror_well_formed originals pacman_repo mirror :
  match init_repos_mirror originals pacman_repo mirror with
  | Ok _ => mirror_well_formed mirror
  | Raise e => is_config_error e ∧ ¬ mirror_well_formed mirror
  end.
Proof.
  unfold init_repos_mirror, mirror_well_formed.
  destruct (mr_name mirror) as [mname|].
  2:{ split; [by eexists | by intros [? _]]. }
  destruct (mr_repos mirror) as [maps|].
  2:{ split; [by eexists | by intros (_ & maps & ? & _)]. }
  pose proof (init_repos_mappings_well_formed mname originals maps pacman_repo)
    as Hm.
  destruct (fold_result _ pacman_repo maps) as [r|e].
  - split; [done|]. by exists maps.
  - destruct Hm as [He Hnot]. split; [done|].
    intros (_ & maps' & [= <-] & Hall). by apply Hnot.
Qed.

(** X5. Mirror resolution succeeds exactly when the mirror catalog is well
    formed, whether or not any mapping matches an original URL: every
    catalog entry must have a name and a list of mappings and every mapping
    both prefixes.  Otherwise it raises a configuration error. *)
Theorem init_repos_mirrors_well_formed (originals : list string)
    (pacman_repo : PacmanRepo.t) (catalog : list MirrorDecl) :
  match fold_result (init_repos_mirror originals) pacman_repo catalog with
  | Ok _ => Forall mirror_well_formed catalog
  | Raise e => is_config_error e ∧ ¬ Forall mirror_well_formed catalog
  end.
Proof.
  revert pacman_repo. induction catalog as [|mirror catalog IH];
    intros pacman_repo.
  - simpl. constructor.
  - cbn [fold_result].
    pose proof (init_repos_mirror_well_formed originals pacman_repo mirror) as Hm.
    destruct (init_repos_mirror originals pacman_repo mirror) as [r|e].
    + simpl. specialize (IH r).
      destruct (fold_result _ r catalog) as [r'|e].
      * by constructor.
      * destruct IH as [He Hnot]. split; [done|].
        intros Hall. apply Forall_cons in Hall as [_ Hall]. by apply Hnot.
    + simpl. destruct Hm as [He Hnot]. split; [done|].
      intros Hall. apply Forall_cons in Hall as [Hall _]. by apply Hnot.
Qed.

Lemma mirror_servers_elem catalog originals s :
  s ∈ mirror_servers catalog originals →
  ∃ mirror maps mapping prefix mirror_prefix rest,
    mirror ∈ catalog ∧ mr_repos mirror = Some maps ∧ mapping ∈ maps ∧
    m_original mapping = Some prefix ∧ m_mirror mapping = Some mirror_prefix ∧
    prefix +:+ rest ∈ originals ∧
    s = PacmanRepoServer.mk (Some (mirror_prefix +:+ rest)) (mr_name mirror) true.
Proof.
  unfold mirror_servers, mapping_servers. intros Hin.
  apply list_elem_of_bind in Hin as (mirror & Hin & Hmirror).
  apply list_elem_of_bind in Hin as (mapping & Hin & Hmapping).
  apply list_elem_of_bind in Hin as (original & Hin & Horiginal).
  destruct (mr_repos mirror) as [maps|] eqn:Hmaps;
    [|by apply elem_of_nil in Hmapping].
  destruct (m_original mapping) as [prefix|] eqn:Hp; [|by apply elem_of_nil in Hin].
  destruct (m_mirror mapping) as [mirror_prefix|] eqn:Hmp;
    [|by apply elem_of_nil in Hin].
  destruct (Py.startswith original prefix) eqn:Hs; [|by apply elem_of_nil in Hin].
  apply list_elem_of_singleton in Hin as ->.
  apply startswith_spec in Hs as [rest ->].
  exists mirror, maps, mapping, prefix, mirror_prefix, rest.
  by rewrite drop_app.
Qed.

(** X6. A mirror server keeps the path of the original it stands for: every
    mirror server of a repository built by [init_repos] comes from a mapping
    of the catalog whose original prefix begins one of the repository's
    original URLs, its URL is the mirror prefix followed by the rest of that
    original URL, its name is the name of the catalog entry, and the
    original server of that URL is in the list as well. *)
Theorem init_repos_mirror_keeps_path (self : Pacman) (decl : RepoDecl)
    (r : PacmanRepo.t) (s : PacmanRepoServer.t) :
  init_repos_build self decl = Ok r →
  s ∈ PacmanRepo.servers r → PacmanRepoServer.mirror s = true →
  ∃ mirror maps mapping prefix mirror_prefix rest,
    mirror ∈ mirrors self ∧ mr_repos mirror = Some maps ∧ mapping ∈ maps ∧
    m_original mapping = Some prefix ∧ m_mirror mapping = Some mirror_prefix ∧
    PacmanRepoServer.url s = Some (mirror_prefix +:+ rest) ∧
    PacmanRepoServer.name s = mr_name mirror ∧
    original_server (prefix +:+ rest) ∈ PacmanRepo.servers r.
Proof.
  intros Hb Hs Hmirror.
  apply init_repos_build_servers in Hb
    as (name & templates & originals & _ & _ & _ & _ & _ & Hservers).
  rewrite Hservers in Hs |- *. apply elem_of_app in Hs as [Hs|Hs].
  - apply mirror_servers_elem in Hs
      as (mirror & maps & mapping & prefix & mirror_prefix & rest
          & ? & ? & ? & ? & ? & Horiginal & ->).
    exists mirror, maps, mapping, prefix, mirror_prefix, rest.
    repeat split; try done.
    apply elem_of_app. right. apply list_elem_of_fmap. eauto.
  - apply list_elem_of_fmap in Hs as (original & -> & _). done.
Qed.

(** X7. [init_repos] does not check that names are unique: a declaration
    that is accepted once is accepted twice, and the registry then holds two
    repositories of the same name. *)
Theorem init_repos_duplicate_names (self : Pacman) (decl : RepoDecl)
    (r : PacmanRepo.t) (st : State) :
  config_repo self = Some [decl; decl] →
  init_repos_build self decl = Ok r → accepted r → repos st = [] →
  init_repos self st = (Ok tt, set_repos [r; r] st).
Proof.
  intros Hcfg Hb Ha Hempty. unfold init_repos. rewrite Hcfg.
  cbn [for_each]. unfold bind at 1.
  rewrite init_repos_step, Hb, (add_repo_accepted r st Ha).
  unfold bind, lift. rewrite (add_repo_accepted r _ Ha).
  unfold ret. cbn [repos set_repos]. rewrite Hempty. simpl.
  by rewrite Z.leb_refl.
Qed.

End MirrorResolverFurther.

(** ** Package lookup, further *)

Lemma split_nonempty (c : ascii) (s : string) : Py.split c s ≠ [].
Proof.
  destruct s as [|d s]; simpl; [done|].
  destruct (Ascii.eqb d c); [done|]. by destruct (Py.split c s).
Qed.

(** Splitting at a separator splits the parts on both sides of it. *)
Lemma split_app_sep (c : ascii) (a rest : string) :
  Py.split c (a +:+ String c rest) = Py.split c a ++ Py.split c rest.
Proof.
  induction a as [|d a IH]; simpl.
  - by rewrite Ascii.eqb_refl.
  - destruct (Ascii.eqb d c); [by rewrite IH|]. rewrite IH.
    pose proof (split_nonempty c a). by destruct (Py.split c a).
Qed.

Section LookupFurther.
Context `{Collaborators}.

(** X8. A qualified name [database/package] is looked up in that database
    alone: the group lookup and the other databases are not consulted.  The
    name [local] always means the local database, an unknown database name
    raises [ValueError], and so does a package the database does not
    have. *)
Theorem lookup_package_qualified (databases : list (string * DB))
    (db pkg : string) :
  Py.contains "/" db = false → Py.contains "/" pkg = false →
  Py.contains ".pkg.tar." (db +:+ "/" +:+ pkg) = false →
  lookup_package databases (db +:+ "/" +:+ pkg) =
    match (if String.eqb db "local" then Some get_localdb
           else dict_get databases db) with
    | None => Raise (ValueError ("database " +:+ db +:+ " not found"))
    | Some d =>
        match get_pkg d pkg with
        | Some p => Ok [p]
        | None => Raise (ValueError ("package " +:+ pkg +:+ " not found"))
        end
    end.
Proof.
  intros Hdb Hpkg Harchive. unfold lookup_package. rewrite Harchive.
  change (db +:+ "/" +:+ pkg) with (db +:+ String "/" pkg).
  rewrite split_app_sep, (split_no_separator "/" db Hdb),
    (split_no_separator "/" pkg Hpkg).
  cbn [app]. destruct (String.eqb db "local").
  - rewrite andb_false_r. done.
  - rewrite andb_true_r. destruct (dict_get databases db) as [d|]; done.
Qed.

(** X9. A name with more than one slash is rejected with [ValueError]
    before any database is consulted (unless it is an archive file name). *)
Theorem lookup_package_bad_name (databases : list (string * DB))
    (a b c : string) :
  Py.contains ".pkg.tar." (a +:+ "/" +:+ b +:+ "/" +:+ c) = false →
  lookup_package databases (a +:+ "/" +:+ b +:+ "/" +:+ c) =
    Raise (ValueError ("bad package name " +:+ a +:+ "/" +:+ b +:+ "/" +:+ c)).
Proof.
  intros Harchive. unfold lookup_package. rewrite Harchive.
  change (a +:+ "/" +:+ b +:+ "/" +:+ c)
    with (a +:+ String "/" (b +:+ String "/" c)).
  rewrite !split_app_sep.
  pose proof (split_nonempty "/" a). pose proof (split_nonempty "/" b).
  pose proof (split_nonempty "/" c).
  destruct (Py.split "/" a) as [|a1 [|a2 la]]; [done| |];
    destruct (Py.split "/" b) as [|b1 [|b2 lb]]; try done;
    destruct (Py.split "/" c) as [|c1 [|c2 lc]]; try done;
    by destruct la.
Qed.

Lemma find_in_caches_Some (m : gmap string node) (caches : list string)
    (filename p : string) :
  find_in_caches m caches filename = Some p ↔
  ∃ earlier cache later,
    caches = earlier ++ cache :: later ∧
    p = Py.path_join cache filename ∧ is_Some (m !! p) ∧
    Forall (λ c, m !! Py.path_join c filename = None) earlier.
Proof.
  induction caches as [|cache caches IH]; simpl.
  - split; [done|]. intros (earlier & c & later & Heq & _). by destruct earlier.
  - unfold os_path_exists. case_bool_decide as Hex.
    + split.
      * intros [= <-]. exists [], cache, caches. by repeat split.
      * intros ([|c earlier] & c' & later & Heq & -> & Hsome & Hnone).
        -- by injection Heq as <- _.
        -- injection Heq as <- _. apply Forall_cons in Hnone as [Hnone _].
           rewrite Hnone in Hex. by destruct Hex.
    + rewrite IH. split.
      * intros (earlier & c & later & -> & -> & Hsome & Hnone).
        exists (cache :: earlier), c, later. repeat split; try done.
        constructor; [|done]. by apply eq_None_not_Some.
      * intros ([|c earlier] & c' & later & Heq & -> & Hsome & Hnone).
        -- injection Heq as <- _. done.
        -- injection Heq as <- ->. apply Forall_cons in Hnone as [_ Hnone].
           by exists earlier, c', later.
Qed.

Lemma find_in_caches_None (m : gmap string node) (caches : list string)
    (filename : string) :
  find_in_caches m caches filename = None ↔
  Forall (λ c, m !! Py.path_join c filename = None) caches.
Proof.
  induction caches as [|cache caches IH]; simpl; [by split|].
  unfold os_path_exists. case_bool_decide as Hex.
  - split; [done|]. intros [Hnone _]%Forall_cons.
    rewrite Hnone in Hex. by destruct Hex.
  - rewrite IH, Forall_cons. split; [|by intros [_ ?]].
    intros Hrest. split; [|done]. by apply eq_None_not_Some.
Qed.

(** X10. [find_package_file] reads only: it returns the package's file name
    joined to the first cache directory, in the order of the cache list,
    in which that path exists, and [None] exactly when it exists in none;
    the state is left as it was. *)
Theorem find_package_file_first (pkg : Package) (st : State) :
  (find_package_file pkg st).2 = st ∧
  ∃ found,
    (find_package_file pkg st).1 = Ok found ∧
    (∀ p, found = Some p ↔
       ∃ earlier cache later,
         caches st = earlier ++ cache :: later ∧
         p = Py.path_join cache (pkg_filename pkg) ∧ is_Some (fs st !! p) ∧
         Forall (λ c, fs st !! Py.path_join c (pkg_filename pkg) = None) earlier) ∧
    (found = None ↔
       Forall (λ c, fs st !! Py.path_join c (pkg_filename pkg) = None)
              (caches st)).
Proof.
  split; [done|].
  exists (find_in_caches (fs st) (caches st) (pkg_filename pkg)).
  split; [done|]. split.
  - intros p. apply find_in_caches_Some.
  - apply find_in_caches_None.
Qed.

(** ** Cache directories *)

Lemma makedirs_exist_ok_cases (p : string) (st : State) :
  (∃ e, makedirs_exist_ok p st = (Raise e, st)) ∨
  (makedirs_exist_ok p st = (Ok tt, set_fs (<[p := Dir]> (fs st)) st) ∧
   (fs st !! p = None ∨ fs st !! p = Some Dir)).
Proof.
  unfold makedirs_exist_ok.
  destruct (fs st !! p) as [[|]|] eqn:Hp.
  - right. split; [|by right]. by rewrite insert_id, set_fs_id.
  - left. by eexists.
  - destruct (os_permits (fs st) p); [right; split; [done | by left] |].
    left. by eexists.
Qed.

(** [init_cache] first fixes the cache list, then creates the two
    directories. *)
Lemma init_cache_steps (self : Pacman) (st : State) :
  init_cache self st =
  (do! makedirs_exist_ok (Py.path_join (work self) "packages") in
   makedirs_exist_ok (Py.path_join (root self) "var/cache/pacman/pkg"))
    (set_caches (cache_dirs self (fs st)) st).
Proof.
  unfold init_cache, cache_dirs.
  unfold bind at 1, modify at 1. unfold bind at 1, get.
  cbn [fs set_caches]. unfold os_path_exists.
  by case_bool_decide.
Qed.


End LookupFurther.

(** ** Package-manager and key-tool commands *)

Section Commands.
Context `{Collaborators}.

Lemma pacman_run (self : Pacman) (args : list string) (st : State) :
  let cmd := pacman_command self args in
  pacman self args st =
    (if bool_decide (exit_status (fs st) cmd ≠ 0)
     then Raise (OSError ("pacman failed with " +:+ pretty (exit_status (fs st) cmd)))
     else Ok tt,
     add_call cmd st).
Proof.
  intros cmd. unfold pacman, bind, run_external. cbn [app]. fold (pacman_command self args).
  fold cmd. by destruct (bool_decide _).
Qed.

Lemma pacman_key_run (self : Pacman) (args : list string) (st : State) :
  gpgcheck self = true →
  let cmd := pacman_key_command self args in
  pacman_key self args st =
    (if bool_decide (exit_status (fs st) cmd ≠ 0)
     then Raise (OSError ("pacman-key failed with " +:+ pretty (exit_status (fs st) cmd)))
     else Ok tt,
     add_call cmd st).
Proof.
  intros Hgpg cmd. unfold pacman_key. rewrite Hgpg. cbn [negb].
  unfold bind, run_external. cbn [app]. fold (pacman_key_command self args).
  fold cmd. by destruct (bool_decide _).
Qed.

Lemma pacman_key_disabled (self : Pacman) (args : list string) (st : State) :
  gpgcheck self = false →
  pacman_key self args st = (Raise (RuntimeError "GPG check disabled"), st).
Proof. intros Hgpg. unfold pacman_key. by rewrite Hgpg. Qed.

Lemma runs_pacman_only_ret {A} (self : Pacman) (a : A) :
  runs_pacman_only self (ret a).
Proof. intros st. exists []. by rewrite app_nil_r. Qed.

Lemma runs_pacman_only_get (self : Pacman) : runs_pacman_only self get.
Proof. intros st. exists []. by rewrite app_nil_r. Qed.

Lemma runs_pacman_only_bind {A B} (self : Pacman) (c : M A) (k : A → M B) :
  runs_pacman_only self c → (∀ a, runs_pacman_only self (k a)) →
  runs_pacman_only self (bind c k).
Proof.
  intros Hc Hk st. destruct (Hc st) as (new1 & Hcalls & Hall & Hfs & Hrepos & Hcaches).
  unfold bind. destruct (c st) as [[a|e] st1]; cbn [snd] in *.
  - destruct (Hk a st1) as (new2 & Hcalls2 & Hall2 & Hfs2 & Hrepos2 & Hcaches2).
    exists (new1 ++ new2). rewrite Hcalls2, Hcalls, Hfs2, Hrepos2, Hcaches2.
    rewrite <- app_assoc. repeat split; try done. by apply Forall_app.
  - by exists new1.
Qed.

Lemma runs_pacman_only_pacman (self : Pacman) (args : list string) :
  runs_pacman_only self (pacman self args).
Proof.
  intros st. rewrite pacman_run. exists [pacman_command self args].
  repeat split; try done. constructor; [by eexists | constructor].
Qed.

Lemma runs_pacman_only_refresh (self : Pacman) (force : bool) :
  runs_pacman_only self (refresh self force).
Proof. apply runs_pacman_only_pacman. Qed.

(** X12. The package-manager methods [uninstall], [install], [download],
    [install_local] and [refresh] run nothing but [pacman] with
    [--noconfirm], the target root and the generated configuration file:
    every command they add to the log has this form, and they change
    neither the file system, nor the registry, nor the cache list.  With an
    empty list the first four return at once and run nothing. *)
Theorem package_methods_run_pacman_only (self : Pacman) (pkgs : list string)
    (force asdeps nodeps : bool) :
  runs_pacman_only self (uninstall self pkgs) ∧
  runs_pacman_only self (install self pkgs force asdeps nodeps) ∧
  runs_pacman_only self (download self pkgs) ∧
  runs_pacman_only self (install_local self pkgs) ∧
  runs_pacman_only self (refresh self force) ∧
  ∀ st, uninstall self [] st = (Ok tt, st) ∧
        install self [] force asdeps nodeps st = (Ok tt, st) ∧
        download self [] st = (Ok tt, st) ∧
        install_local self [] st = (Ok tt, st).
Proof.
  repeat split; try done.
  - unfold uninstall. destruct (length pkgs =? 0)%nat;
      [apply runs_pacman_only_ret | apply runs_pacman_only_pacman].
  - unfold install. destruct (length pkgs =? 0)%nat;
      [apply runs_pacman_only_ret |].
    apply runs_pacman_only_bind; [apply runs_pacman_only_get|]. intros st0.
    apply runs_pacman_only_bind; [|intros _; apply runs_pacman_only_pacman].
    destruct (negb _);
      [apply runs_pacman_only_refresh | apply runs_pacman_only_ret].
  - unfold download. destruct (length pkgs =? 0)%nat;
      [apply runs_pacman_only_ret |].
    apply runs_pacman_only_bind; [apply runs_pacman_only_get|]. intros st0.
    apply runs_pacman_only_bind; [|intros _; apply runs_pacman_only_pacman].
    destruct (negb _);
      [apply runs_pacman_only_refresh | apply runs_pacman_only_ret].
  - unfold install_local. destruct (length pkgs =? 0)%nat;
      [apply runs_pacman_only_ret | apply runs_pacman_only_pacman].
  - apply runs_pacman_only_refresh.
Qed.

(** X13. [install] of a non-empty list refreshes the databases first exactly
    when the synchronised [core] database is missing below the target root,
    and a failed refresh stops it: the install command is then not run.  The
    install command is [--sync], then [--needed] unless [force], then
    [--asdeps] and a doubled [--nodeps] if asked for, then the packages.
    The call returns exactly when every command it ran exited with 0. *)
Theorem install_refreshes_first (self : Pacman) (pkgs : list string)
    (force asdeps nodeps : bool) (st : State) :
  pkgs ≠ [] →
  let refresh_cmd := pacman_command self ["--sync"; "--refresh"] in
  let install_cmd := pacman_command self (install_args force asdeps nodeps pkgs) in
  let run := install self pkgs force asdeps nodeps st in
  let refreshed :=
    bool_decide (is_Some (fs st !! core_db_path self)) ||
    bool_decide (exit_status (fs st) refresh_cmd = 0) in
  calls run.2 =
    calls st ++
    (if bool_decide (is_Some (fs st !! core_db_path self)) then [] else [refresh_cmd])
    ++ (if refreshed then [install_cmd] else []) ∧
  (run.1 = Ok tt ↔
     refreshed = true ∧ exit_status (fs st) install_cmd = 0).
Proof.
  intros Hne refresh_cmd install_cmd run refreshed.
  assert (Hargs : (let args := ["--sync"] in
            let args := if negb force then args ++ ["--needed"] else args in
            let args := if asdeps then args ++ ["--asdeps"] else args in
            let args := if nodeps then args ++ ["--nodeps"; "--nodeps"] else args in
            args ++ pkgs) = install_args force asdeps nodeps pkgs).
  { unfold install_args. by destruct force, asdeps, nodeps. }
  assert (Hrun : run =
    (do! (if negb (bool_decide (is_Some (fs st !! core_db_path self)))
          then refresh self false else ret tt) in
     pacman self (install_args force asdeps nodeps pkgs)) st).
  { subst run. unfold install. destruct pkgs as [|pkg pkgs]; [done|].
    cbn [length Nat.eqb]. cbv zeta in Hargs |- *. by rewrite Hargs. }
  rewrite Hrun. clear Hrun. subst refreshed.
  destruct (bool_decide (is_Some (fs st !! core_db_path self))); cbn [negb orb].
  - unfold bind, ret. rewrite pacman_run. fold install_cmd.
    cbn [fst snd calls add_call]. split; [done|].
    case_bool_decide as Hs; intuition (try discriminate; try lia).
  - unfold bind, refresh. rewrite pacman_run. fold refresh_cmd.
    cbn [fs add_call].
    destruct (decide (exit_status (fs st) refresh_cmd = 0)) as [Hz|Hz].
    + rewrite (bool_decide_false (_ ≠ 0)) by (by intros ?).
      rewrite (bool_decide_true (_ = 0)) by done.
      rewrite pacman_run. fold install_cmd. cbn [fst snd calls add_call fs].
      split; [by rewrite <- app_assoc|].
      case_bool_decide as Hs; intuition (try discriminate; try lia).
    + rewrite (bool_decide_true (_ ≠ 0)) by done.
      rewrite (bool_decide_false (_ = 0)) by done.
      cbn [fst snd calls add_call]. split; [by rewrite app_nil_r|].
      split; [done | by intros [? _]].
Qed.

(** X14. With signature checking off the key tool is never run: [pacman_key],
    and with it [lsign_key], [recv_keys] of a key and [pouplate_keys], raise
    [RuntimeError] before building a command, and [init_keyring],
    [trust_keyring_pkg] and [add_trust_keyring_pkg] return at once; none of
    them changes the state. *)
Theorem key_tool_disabled (self : Pacman) (st : State) :
  gpgcheck self = false →
  let disabled := (Raise (RuntimeError "GPG check disabled"), st) in
  (∀ args, pacman_key self args st = disabled) ∧
  (∀ key, lsign_key self key st = disabled) ∧
  (∀ key, recv_keys self (KeyStr key) st = disabled) ∧
  (∀ names folder, pouplate_keys_any self names folder st = disabled) ∧
  (∀ names folder, pouplate_keys self names folder st = disabled) ∧
  init_keyring self st = (Returns tt, st) ∧
  (∀ pkg, trust_keyring_pkg self pkg st = (Ok tt, st)) ∧
  (∀ databases pkgnames,
     add_trust_keyring_pkg self databases pkgnames st = (Ok tt, st)).
Proof.
  intros Hgpg disabled. subst disabled. repeat split; intros.
  - by apply pacman_key_disabled.
  - by apply pacman_key_disabled.
  - by apply pacman_key_disabled.
  - by apply pacman_key_disabled.
  - by apply pacman_key_disabled.
  - unfold init_keyring. by rewrite Hgpg.
  - unfold trust_keyring_pkg. by rewrite Hgpg.
  - unfold add_trust_keyring_pkg. by rewrite Hgpg.
Qed.

(** X15. [recv_keys] takes one key or a list of keys: a list of one key runs
    the same command as the key alone, a longer list runs one command with
    all its keys, and the empty list runs nothing at all, not even the test
    whether signature checking is on. *)
Theorem recv_keys_list (self : Pacman) (key : string) (keys : list string)
    (st : State) :
  recv_keys self (KeyList [key]) st = recv_keys self (KeyStr key) st ∧
  recv_keys self (KeyList []) st = (Ok tt, st) ∧
  recv_keys self (KeyList (key :: keys)) st =
    pacman_key self ("--recv-keys" :: key :: keys) st ∧
  (if gpgcheck self
   then calls (recv_keys self (KeyList (key :: keys)) st).2 =
          calls st ++ [pacman_key_command self ("--recv-keys" :: key :: keys)]
   else calls (recv_keys self (KeyList (key :: keys)) st).2 = calls st).
Proof.
  repeat split; try done.
  destruct (gpgcheck self) eqn:Hgpg.
  - unfold recv_keys. cbn [length Nat.leb app]. by rewrite pacman_key_run.
  - unfold recv_keys. cbn [length Nat.leb app]. by rewrite pacman_key_disabled.
Qed.

End Commands.

(** ** Keyring initialisation *)

Section InitKeyring.
Context `{Collaborators}.

Lemma F_logs_only_ret {A} (a : A) : F_logs_only (F_ret a).
Proof. intros st. exists []. by rewrite app_nil_r. Qed.

Lemma F_logs_only_fault {A} (f : fault) : F_logs_only (@F_fault A f).
Proof. intros st. exists []. by rewrite app_nil_r. Qed.

Lemma F_logs_only_bind {A B} (c : F A) (k : A → F B) :
  F_logs_only c → (∀ a, F_logs_only (k a)) → F_logs_only (F_bind c k).
Proof.
  intros Hc Hk st. destruct (Hc st) as (new1 & Hcalls & Hfs).
  unfold F_bind. destruct (c st) as [[a|e|f] st1]; cbn [snd] in *;
    [|by exists new1 | by exists new1].
  destruct (Hk a st1) as (new2 & Hcalls2 & Hfs2).
  exists (new1 ++ new2). by rewrite Hcalls2, Hcalls, Hfs2, <- app_assoc.
Qed.

Lemma pacman_key_logs (self : Pacman) (args : list string) :
  F_logs_only (F_lift (pacman_key self args)).
Proof.
  intros st. unfold F_lift. destruct (gpgcheck self) eqn:Hgpg.
  - rewrite pacman_key_run by done. exists [pacman_key_command self args].
    by destruct (bool_decide _).
  - rewrite pacman_key_disabled by done. exists []. by rewrite app_nil_r.
Qed.

Lemma init_keyring_wget_logs (url dest : string) :
  F_logs_only (F_lift (init_keyring_wget url dest)).
Proof.
  intros st. unfold F_lift, init_keyring_wget, bind, run_external.
  exists [["wget"; url; "-O"; dest]]. by destruct (bool_decide _).
Qed.

Lemma init_keyring_repo_logs (self : Pacman) (keypath : option string)
    (repo : PacmanRepo.t) :
  F_logs_only (init_keyring_repo self keypath repo).
Proof.
  unfold init_keyring_repo. apply F_logs_only_bind.
  - destruct (PacmanRepo.mirrorlist repo); [|apply F_logs_only_ret].
    destruct keypath; [apply init_keyring_wget_logs | apply F_logs_only_fault].
  - intros _. destruct (PacmanRepo.publickey repo).
    + apply F_logs_only_bind; [apply init_keyring_wget_logs|]. intros _.
      apply F_logs_only_bind; [apply pacman_key_logs|]. intros _.
      apply F_logs_only_bind; [|intros _; apply F_logs_only_ret].
      destruct (PacmanRepo.keyid repo);
        [apply pacman_key_logs | apply F_logs_only_fault].
    + destruct (PacmanRepo.keyid repo); [|apply F_logs_only_ret].
      apply F_logs_only_bind; [apply pacman_key_logs|]. intros _.
      apply F_logs_only_bind; [apply pacman_key_logs|]. intros _.
      apply F_logs_only_ret.
Qed.

Lemma init_keyring_repos_logs (self : Pacman) (keypath : option string)
    (rs : list PacmanRepo.t) :
  F_logs_only (init_keyring_repos self keypath rs).
Proof.
  revert keypath. induction rs as [|repo rs IH]; intros keypath; simpl.
  - apply F_logs_only_ret.
  - apply F_logs_only_bind; [apply init_keyring_repo_logs | intros kp; apply IH].
Qed.

(** X16. [init_keyring] runs once per key directory: when the trust database
    is there already it returns without running anything.  Otherwise, with
    signature checking on, the first command it runs is [pacman-key --init];
    when that fails it raises [OSError] and runs nothing else.  It never
    changes the file system itself. *)
Theorem init_keyring_once (self : Pacman) (st : State) :
  let init_cmd := pacman_key_command self ["--init"] in
  fs (init_keyring self st).2 = fs st ∧
  match fs st !! trustdb_path self with
  | Some _ => init_keyring self st = (Returns tt, st)
  | None =>
      if gpgcheck self then
        ∃ rest, calls (init_keyring self st).2 = calls st ++ init_cmd :: rest ∧
                (exit_status (fs st) init_cmd ≠ 0 →
                 rest = [] ∧ ∃ msg, (init_keyring self st).1 = Raises (OSError msg))
      else init_keyring self st = (Returns tt, st)
  end.
Proof.
  intros init_cmd. unfold init_keyring. fold (trustdb_path self).
  unfold os_path_exists.
  destruct (gpgcheck self) eqn:Hgpg; cbn [negb]; [|by destruct (fs st !! _)].
  destruct (fs st !! trustdb_path self) as [n|] eqn:Htrust.
  { by rewrite bool_decide_true by eauto. }
  rewrite bool_decide_false by (by intros [? ?]).
  unfold F_bind, F_lift. rewrite pacman_key_run by done. fold init_cmd.
  destruct (decide (exit_status (fs st) init_cmd = 0)) as [Hz|Hz].
  - rewrite bool_decide_false by (by intros ?).
    destruct (init_keyring_repos_logs self None (repos st) (add_call init_cmd st))
      as (new & Hcalls & Hfs).
    cbn [repos add_call] in *. split; [done|].
    exists new. split; [|done]. rewrite Hcalls. cbn [calls add_call].
    by rewrite <- app_assoc.
  - rewrite bool_decide_true by done. cbn [fst snd]. split; [done|].
    exists []. split; [done|]. intros _. split; [done|]. by eexists.
Qed.

Lemma F_lift_pacman_key_cases (self : Pacman) (args : list string) (st : State) :
  gpgcheck self = true →
  (F_lift (pacman_key self args) st =
     (Returns tt, add_call (pacman_key_command self args) st) ∧
   exit_status (fs st) (pacman_key_command self args) = 0) ∨
  (∃ e, F_lift (pacman_key self args) st =
          (Raises e, add_call (pacman_key_command self args) st) ∧
        exit_status (fs st) (pacman_key_command self args) ≠ 0).
Proof.
  intros Hgpg. unfold F_lift. rewrite pacman_key_run by done.
  case_bool_decide as Hs; [right; eauto | left]. split; [done|]. lia.
Qed.

(** A repository with a mirrorlist, met while [keypath] is unbound: the
    read of [keypath] faults at once. *)
Lemma init_keyring_repo_mirrorlist (self : Pacman) (repo : PacmanRepo.t)
    (st : State) :
  PacmanRepo.mirrorlist repo ≠ None →
  init_keyring_repo self None repo st = (Faults (UnboundLocalError "keypath"), st).
Proof.
  intros Hml. unfold init_keyring_repo.
  by destruct (PacmanRepo.mirrorlist repo).
Qed.

(** A repository with neither mirrorlist nor public key: the body returns,
    or a key-tool command fails, and [keypath] is as unbound as before. *)
Lemma init_keyring_repo_unbound (self : Pacman) (repo : PacmanRepo.t) (st : State) :
  gpgcheck self = true →
  PacmanRepo.publickey repo = None → PacmanRepo.mirrorlist repo = None →
  (∃ st', init_keyring_repo self None repo st = (Returns None, st')) ∨
  (∃ e st', init_keyring_repo self None repo st = (Raises e, st') ∧
            ∃ m cmd, exit_status m cmd ≠ 0).
Proof.
  intros Hgpg Hpk Hml. unfold init_keyring_repo. rewrite Hpk, Hml.
  destruct (PacmanRepo.keyid repo) as [keyid|]; [|left; by eexists].
  unfold F_bind, F_ret, recv_keys, lsign_key. cbn [app].
  destruct (F_lift_pacman_key_cases self ["--recv-keys"; keyid] st Hgpg)
    as [[-> _] | (e & -> & Hs)].
  2:{ right. exists e. eexists. split; [done|]. by eexists _, _. }
  destruct (F_lift_pacman_key_cases self ["--lsign-key"; keyid]
              (add_call (pacman_key_command self ["--recv-keys"; keyid]) st) Hgpg)
    as [[-> _] | (e & -> & Hs)].
  - left. by eexists.
  - right. exists e. eexists. split; [done|]. by eexists _, _.
Qed.

Lemma init_keyring_repos_unbound (self : Pacman)
    (before after : list PacmanRepo.t) (repo : PacmanRepo.t) (st : State) :
  gpgcheck self = true →
  Forall (λ r, PacmanRepo.publickey r = None) before →
  PacmanRepo.mirrorlist repo ≠ None →
  (init_keyring_repos self None (before ++ repo :: after) st).1
    = Faults (UnboundLocalError "keypath") ∨
  ((∃ e, (init_keyring_repos self None (before ++ repo :: after) st).1 = Raises e)
   ∧ ∃ m cmd, exit_status m cmd ≠ 0).
Proof.
  intros Hgpg Hbefore Hml. revert st.
  induction Hbefore as [|r before Hr _ IH]; intros st.
  - cbn [app init_keyring_repos]. unfold F_bind.
    rewrite init_keyring_repo_mirrorlist by done. by left.
  - cbn [app init_keyring_repos]. unfold F_bind.
    destruct (PacmanRepo.mirrorlist r) as [url|] eqn:Hmr.
    + rewrite init_keyring_repo_mirrorlist by (by rewrite Hmr). by left.
    + destruct (init_keyring_repo_unbound self r st Hgpg Hr Hmr)
        as [[st' ->] | (e & st' & -> & Hs)]; [apply IH|].
      right. split; [by eexists | done].
Qed.

(** X17. [init_keyring] cannot get past a repository with a mirrorlist that
    comes before every repository with a public key: the download of the
    mirrorlist names its target [keypath], a variable that only the
    public-key branch binds, so reading it stops the method with
    [UnboundLocalError] (unless an earlier key-tool command has failed and
    raised first).  The method does not return in either case. *)
Theorem init_keyring_mirrorlist_unbound (self : Pacman) (st : State)
    (before after : list PacmanRepo.t) (repo : PacmanRepo.t) :
  gpgcheck self = true → fs st !! trustdb_path self = None →
  repos st = before ++ repo :: after →
  Forall (λ r, PacmanRepo.publickey r = None) before →
  PacmanRepo.mirrorlist repo ≠ None →
  ((init_keyring self st).1 = Faults (UnboundLocalError "keypath") ∨
   ∃ e, (init_keyring self st).1 = Raises e) ∧
  ((∀ m cmd, exit_status m cmd = 0) →
   (init_keyring self st).1 = Faults (UnboundLocalError "keypath")).
Proof.
  intros Hgpg Htrust Hrepos Hbefore Hml.
  assert (Hfault : (init_keyring self st).1 = Faults (UnboundLocalError "keypath") ∨
            ((∃ e, (init_keyring self st).1 = Raises e) ∧
             ∃ m cmd, exit_status m cmd ≠ 0)).
  { destruct (init_keyring self st) as [o st'] eqn:Hrun. cbn [fst].
    unfold init_keyring in Hrun. fold (trustdb_path self) in Hrun.
    rewrite Hgpg in Hrun. cbn [negb] in Hrun.
    unfold os_path_exists in Hrun. rewrite Htrust in Hrun.
    rewrite bool_decide_false in Hrun by (by intros [? ?]).
    unfold F_bind in Hrun.
    destruct (F_lift_pacman_key_cases self ["--init"] st Hgpg)
      as [[Hinit _] | (e & Hinit & Hs)]; rewrite Hinit in Hrun.
    - rewrite Hrepos in Hrun.
      pose proof (init_keyring_repos_unbound self before after repo
                    (add_call (pacman_key_command self ["--init"]) st)
                    Hgpg Hbefore Hml) as Hloop.
      destruct (init_keyring_repos self None _ _) as [o' st''].
      by injection Hrun as <- _.
    - injection Hrun as <- _. right. split; [by eexists | by eexists _, _]. }
  destruct Hfault as [Hf | [[e He] (m & cmd & Hs)]].
  - split; [by left | done].
  - split; [right; by eexists|]. intros Hzero. by specialize (Hzero m cmd).
Qed.

End InitKeyring.

(** ** Keyring extraction, further *)

Section KeyringFurther.
Context `{Collaborators}.






Lemma runs_pacman_only_download (self : Pacman) (pkgs : list string) :
  runs_pacman_only self (download self pkgs).
Proof.
  unfold download. destruct (length pkgs =? 0)%nat;
    [apply runs_pacman_only_ret |].
  apply runs_pacman_only_bind; [apply runs_pacman_only_get|]. intros st0.
  apply runs_pacman_only_bind; [|intros _; apply runs_pacman_only_pacman].
  destruct (negb _);
    [apply runs_pacman_only_refresh | apply runs_pacman_only_ret].
Qed.

(** X20. [add_trust_keyring_pkg] downloads before it trusts: when the
    download of the packages fails, it raises that error having run the
    package manager only; no package is looked up, the scratch directory is
    not reset and the key tool is not called. *)
Theorem add_trust_keyring_pkg_download_first (self : Pacman)
    (databases : list (string * DB)) (pkgnames : list string)
    (st st1 : State) (e : exn) :
  gpgcheck self = true → pkgnames ≠ [] →
  download self pkgnames st = (Raise e, st1) →
  add_trust_keyring_pkg self databases pkgnames st = (Raise e, st1) ∧
  fs st1 = fs st ∧
  ∃ new, calls st1 = calls st ++ new ∧
         Forall (λ cmd, ∃ args, cmd = pacman_command self args) new.
Proof.
  intros Hgpg Hne Hdl. split.
  - unfold add_trust_keyring_pkg. rewrite Hgpg. cbn [negb].
    destruct pkgnames as [|n ns]; [done|]. cbn [length Nat.leb].
    unfold bind at 1. by rewrite Hdl.
  - destruct (runs_pacman_only_download self pkgnames st)
      as (new & Hcalls & Hall & Hfs & _).
    rewrite Hdl in Hcalls, Hfs. split; [done|]. by exists new.
Qed.

End KeyringFurther.

(** ** Config renderer, further *)

Lemma repo_section_header (r : PacmanRepo.t) :
  filter (λ l, is_header_line l = true) (repo_section false r) =
  [section_header (PacmanRepo.name r)].
Proof.
  unfold repo_section. cbn [section_header].
  rewrite filter_cons_True by done. f_equal.
  induction (PacmanRepo.servers r) as [|s servers IH]; [done|].
  change (filter (λ l, is_header_line l = true)
            (server_comment s :: server_directive s ::
              (server ← servers; [server_comment server; server_directive server]))
          = []).
  rewrite !filter_cons_False, IH; [done|done|].
  unfold server_comment. by destruct (PacmanRepoServer.mirror s).
Qed.

(** X21. The configuration text has one section per repository, in registry
    order, after the options section: its header lines are [[options]]
    followed by the header of every repository of the registry in order, so
    a registry in priority order is rendered in priority order. *)
Theorem append_config_headers (self : Pacman) (st : State) :
  filter (λ l, is_header_line l = true) (append_config self st []) =
  ("[options]" +:+ nl) ::
  ((λ r, section_header (PacmanRepo.name r)) <$> repos st).
Proof.
  rewrite append_config_lines.
  change ([] ++ config_lines self st) with (config_lines self st).
  unfold config_lines. rewrite !filter_app.
  assert (Hcaches : filter (λ l, is_header_line l = true)
             ((λ cache, "CacheDir = " +:+ cache +:+ nl) <$> caches st) = []).
  { induction (caches st) as [|c cs IH]; [done|].
    rewrite fmap_cons, filter_cons_False by done. exact IH. }
  assert (Hrepos : filter (λ l, is_header_line l = true)
             (repos st ≫= repo_section false) =
           (λ r, section_header (PacmanRepo.name r)) <$> repos st).
  { induction (repos st) as [|r rs IH]; [done|].
    change (filter (λ l, is_header_line l = true)
              (repo_section false r ++ (rs ≫= repo_section false))
            = section_header (PacmanRepo.name r) ::
              ((λ r, section_header (PacmanRepo.name r)) <$> rs)).
    by rewrite filter_app, repo_section_header, IH. }
  rewrite Hcaches, Hrepos.
  rewrite (filter_cons_True _ ("[options]" +:+ nl)) by done.
  rewrite !filter_cons_False by (try done; by destruct (gpgcheck self)).
  by rewrite filter_nil.
Qed.

(** ** Construction *)

Section Construction.
Context `{Collaborators}.

Lemma init_config_result (self : Pacman) (st st' : State) :
  init_config self st = (Ok tt, st') →
  st' = set_fs (<[config_path self :=
                    File (String.concat "" (config_lines self st))
                         new_mode new_uid new_gid]> (fs st)) st.
Proof.
  unfold init_config, config_path, bind, get, os_path_exists.
  destruct (fs st !! _) as [[|data mode uid gid]|] eqn:Hfs.
  - rewrite bool_decide_true by eauto. unfold os_remove. by rewrite Hfs.
  - rewrite bool_decide_true by eauto. unfold os_remove. rewrite Hfs.
    destruct (os_permits (fs st) _); [|done]. unfold write_file. simpl.
    rewrite lookup_delete_eq. destruct (os_permits _ _); [|done].
    intros [= <-]. unfold set_fs. simpl.
    by rewrite insert_delete_eq, append_config_lines.
  - rewrite bool_decide_false by (by intros [? ?]).
    unfold ret, write_file. rewrite Hfs.
    destruct (os_permits _ _); [|done]. intros [= <-].
    by rewrite append_config_lines.
Qed.

(** X22. Construction composes its three steps: when [__init__] returns,
    the cache list is the one [init_cache] computes from the file system it
    started with, the registry holds one repository per declaration in
    ascending priority order, and the configuration file holds the text
    rendered from exactly this cache list and registry.  No external command
    has been run. *)
Theorem pacman_init_result (self : Pacman) (st st' : State) :
  pacman_init self st = (Ok tt, st') →
  caches st' = cache_dirs self (fs st) ∧
  StronglySorted priority_le (repos st') ∧
  (∃ decls, config_repo self = Some decls ∧ length (repos st') = length decls) ∧
  fs st' !! config_path self =
    Some (File (String.concat "" (config_lines self st')) new_mode new_uid new_gid) ∧
  calls st' = calls st.
Proof.
  unfold pacman_init. unfold bind at 1, modify at 1.
  unfold bind at 1, modify at 1. unfold bind at 1.
  set (st0 := set_repos [] (set_caches [] st)).
  destruct (init_cache self st0) as [r1 st1] eqn:Hcache.
  pose proof (f_equal snd Hcache) as Hst1. cbn [snd] in Hst1.
  rewrite init_cache_steps in Hst1.
  assert (Hframe1 : caches st1 = cache_dirs self (fs st) ∧ repos st1 = [] ∧
                    calls st1 = calls st).
  { rewrite <- Hst1. unfold bind.
    destruct (makedirs_exist_ok_cases (Py.path_join (work self) "packages")
                (set_caches (cache_dirs self (fs st0)) st0)) as [[e ->] | [-> _]];
      [done|].
    set (st2 := set_fs _ _).
    by destruct (makedirs_exist_ok_cases
                   (Py.path_join (root self) "var/cache/pacman/pkg") st2)
      as [[e ->] | [-> _]]. }
  destruct Hframe1 as (Hcaches1 & Hrepos1 & Hcalls1).
  destruct r1 as [[]|e]; [|done]. unfold bind at 1.
  destruct (init_repos self st1) as [r2 st2] eqn:Hrepos.
  destruct r2 as [[]|e]; [|done]. intros Hconfig.
  unfold init_repos in Hrepos.
  destruct (config_repo self) as [decls|] eqn:Hcfg; [|done].
  pose proof (init_repos_loop_frame _ _ _ _ _ Hrepos) as (Hfs2 & Hcalls2 & Hcaches2).
  apply init_repos_loop_each in Hrepos as (built & Hbuilt & Hperm & Hsorted).
  apply init_config_result in Hconfig as ->.
  cbn [caches repos calls fs set_fs]. rewrite Hcaches2, Hcalls2.
  split; [done|]. split.
  { apply Hsorted. rewrite Hrepos1. constructor. }
  split.
  { exists decls. split; [done|]. rewrite Hperm, Hrepos1. cbn [app].
    symmetry. by eapply Forall2_length. }
  split; [|done]. by rewrite lookup_insert_eq.
Qed.

End Construction.

(** ** Runs of the concrete builder *)

#[local] Existing Instance Example.world.

Lemma add_repo_sorted_stable_witness :
  let rs := [Example.repo_of "extra" 20; Example.repo_of "core" 10;
             Example.repo_of "community" 20] in
  repos (add_repos rs (Example.state ∅)) =
    [Example.repo_of "core" 10; Example.repo_of "extra" 20;
     Example.repo_of "community" 20] ∧
  StronglySorted priority_le (repos (add_repos rs (Example.state ∅))) ∧
  with_priority 20 (repos (add_repos rs (Example.state ∅))) =
    [Example.repo_of "extra" 20; Example.repo_of "community" 20].
Proof.
  split; [reflexivity|].
  pose proof (add_repo_sorted_stable
    [Example.repo_of "extra" 20; Example.repo_of "core" 10;
     Example.repo_of "community" 20] (Example.state ∅)) as Hw.
  destruct Hw as [Hsorted Hstable]; [constructor|].
  split; [exact Hsorted|]. rewrite Hstable. reflexivity.
Defined.


Lemma init_repos_servers_order_witness :
  ∃ st', init_repos (Example.builder [Example.core_decl]) (Example.state ∅)
         = (Ok tt, st') ∧
  repos st' =
    [ PacmanRepo.mk (Some "core") 10000
        [ PacmanRepoServer.mk (Some "https://mirror.example/core/os/x86_64")
                              (Some "fast") true;
          PacmanRepoServer.mk (Some "https://example.org/core/os/x86_64")
                              None false ]
        None None None ] ∧
  ∀ repo, repo ∈ repos st' →
    ∃ originals,
      PacmanRepo.servers repo =
        mirror_servers [Example.example_mirror] originals ++
        (original_server <$> originals).
Proof.
  eexists. split; [reflexivity|]. split; [reflexivity|].
  intros repo Hrepo.
  destruct (@init_repos_servers_order Example.world
              (Example.builder [Example.core_decl]) (Example.state ∅) _
              eq_refl repo Hrepo)
    as [Hin|(decls & decl & name & templates & originals & Hrest)].
  - by apply elem_of_nil in Hin.
  - exists originals. apply Hrest.
Defined.

Lemma init_repos_publickey_without_keyid_witness :
  ∃ msg st',
    init_repos (Example.builder [Example.core_decl; Example.signed_decl])
               (Example.state ∅)
    = (Raise (ArchBuilderConfigError msg), st') ∧
    calls st' = [] ∧ fs st' = ∅.
Proof.
  apply (@init_repos_publickey_without_keyid Example.world
           (Example.builder [Example.core_decl; Example.signed_decl])
           (Example.state ∅) [Example.core_decl] [] Example.signed_decl).
  - reflexivity.
  - split; [discriminate | reflexivity].
  - constructor; [|constructor]. intros e He. vm_compute in He. discriminate.
Defined.

(** C2. The URL templates under the [servers] key are not substituted: line
    333 reads [repo["server"]] where its guard tested ["servers"].  A
    repository declared under [servers] alone makes the lookup raise
    [KeyError]; with both keys the list under [servers] is ignored and the
    characters of the [server] string are taken as further templates. *)
Theorem init_repos_servers_key_unread :
  init_repos_build (Example.builder [Example.core_servers_decl])
                   Example.core_servers_decl
  = Raise (KeyError "server") ∧
  (init_repos (Example.builder [Example.core_servers_decl]) (Example.state ∅)).1
  = Raise (KeyError "server") ∧
  init_repos_servers Example.both_keys_decl = Ok ["ab"; "a"; "b"].
Proof. repeat split; reflexivity. Qed.



Lemma trust_keyring_pkg_names_witness :
  let self := Example.builder [] in
  let m := Example.package_file "keyring" ∪ Example.stale_scratch in
  ∃ r st',
    Example.trust Example.keyring_pkg m = (r, st') ∧
    calls st' = [] ++ [populate_command self (scratch_dir self) ["archlinux"]] ∧
    (∀ name, name ∈ ["archlinux"] ↔
       ∃ file, file ∈ Example.keyring_archive ∧
               keyring_member keyring_prefix file = Some (name +:+ key_ext)) ∧
    (NoDup (pathname <$> Example.keyring_archive) → NoDup ["archlinux"]).
Proof.
  intros self m.
  apply (@trust_keyring_pkg_names Example.world self Example.keyring_pkg
           (Example.state m)
           "/work/packages/archlinux-keyring-1-any.pkg.tar.zst" "keyring" 420 0 0
           Example.keyring_archive); by vm_compute.
Defined.

(** C5 without the condition on pathnames does not hold: an archive that
    holds a key file twice yields its identifier twice. *)
Lemma key_names_not_distinct : ¬ key_names_distinct.
Proof.
  intros Hdistinct.
  pose (m := Example.package_file "repeated").
  assert (NoDup ["archlinux"; "archlinux"]) as Hnodup.
  { apply (Hdistinct Example.world (Example.builder []) Example.keyring_pkg
             (Example.state m)
             (Example.trust Example.keyring_pkg m).2
             (Example.trust Example.keyring_pkg m).1 _ eq_refl).
    by vm_compute. }
  apply NoDup_cons in Hnodup as [Hnotin _]. apply Hnotin. left.
Qed.



Lemma lookup_package_group_first_witness :
  @get_pkg Example.world [("bash", ["base"]); ("base", [])] "base" = Some "base" ∧
  @lookup_package Example.world Example.databases "base" = Ok ["bash"] ∧
  @lookup_package Example.world Example.databases "bash" = Ok ["bash"] ∧
  @lookup_package Example.world Example.databases "nano"
    = Raise (ValueError "package nano not found").
Proof.
  split; [reflexivity|].
  assert (NoDup Example.databases.*1) as Hnodup.
  { apply (bool_decide_unpack _). by vm_compute. }
  pose proof (λ name Hslash Harchive,
    proj1 (@lookup_package_group_first Example.world Example.databases name
             Hslash Harchive Hnodup)) as Hlookup.
  split; [|split].
  - rewrite (Hlookup "base"); reflexivity.
  - rewrite (Hlookup "bash"); reflexivity.
  - rewrite (Hlookup "nano"); reflexivity.
Defined.

(** *** Runs for the further properties *)

Lemma init_repos_registers_usable_witness :
  ∃ decl name front original,
    decl ∈ [Example.core_decl] ∧ r_name decl = Some name ∧ name_usable name ∧
    PacmanRepo.servers Example.core_repo = front ++ [original_server original].
Proof.
  destruct (@init_repos_registers_usable Example.world
              (Example.builder [Example.core_decl]) (Example.state ∅)
              (set_repos [Example.core_repo] (Example.state ∅))
              eq_refl Example.core_repo)
    as [Hin|(decls & decl & name & front & original
             & Hcfg & Hdecl & Hname & Husable & _ & _ & Hservers)].
  - left.
  - by apply elem_of_nil in Hin.
  - injection Hcfg as <-. by exists decl, name, front, original.
Defined.

Lemma init_repos_one_per_declaration_witness :
  ∃ built,
    Forall2 (λ decl r, init_repos_build (Example.builder [Example.core_decl]) decl
                       = Ok r) [Example.core_decl] built ∧
    [Example.core_repo] ≡ₚ [] ++ built ∧
    length [Example.core_repo] = (0 + 1)%nat ∧
    StronglySorted priority_le [Example.core_repo].
Proof.
  apply (@init_repos_one_per_declaration Example.world
           (Example.builder [Example.core_decl]) [Example.core_decl]
           (Example.state ∅) (set_repos [Example.core_repo] (Example.state ∅)));
    [reflexivity | constructor | reflexivity].
Defined.

Lemma init_repos_keeps_earlier_witness :
  init_repos (Example.builder [Example.core_decl; Example.signed_decl])
             (Example.state ∅)
  = (Raise (ArchBuilderConfigError "publickey is provided without keyid"),
     set_repos [Example.core_repo] (Example.state ∅)).
Proof.
  apply (@init_repos_keeps_earlier Example.world
           (Example.builder [Example.core_decl; Example.signed_decl])
           (Example.state ∅) (set_repos [Example.core_repo] (Example.state ∅))
           [Example.core_decl] [] Example.signed_decl); reflexivity.
Defined.

Lemma init_repos_mirror_keeps_path_witness :
  ∃ mirror maps mapping prefix mirror_prefix rest,
    mirror ∈ [Example.example_mirror] ∧ mr_repos mirror = Some maps ∧
    mapping ∈ maps ∧
    m_original mapping = Some prefix ∧ m_mirror mapping = Some mirror_prefix ∧
    Some "https://mirror.example/core/os/x86_64" = Some (mirror_prefix +:+ rest) ∧
    Some "fast" = mr_name mirror ∧
    original_server (prefix +:+ rest) ∈ PacmanRepo.servers Example.core_repo.
Proof.
  apply (@init_repos_mirror_keeps_path Example.world
           (Example.builder [Example.core_decl]) Example.core_decl
           Example.core_repo
           (PacmanRepoServer.mk (Some "https://mirror.example/core/os/x86_64")
                                (Some "fast") true));
    [reflexivity | left | reflexivity].
Defined.

Lemma init_repos_duplicate_names_witness :
  init_repos (Example.builder [Example.core_decl; Example.core_decl])
             (Example.state ∅)
  = (Ok tt, set_repos [Example.core_repo; Example.core_repo] (Example.state ∅)).
Proof.
  apply (@init_repos_duplicate_names Example.world
           (Example.builder [Example.core_decl; Example.core_decl])
           Example.core_decl Example.core_repo (Example.state ∅));
    try reflexivity.
  repeat split; discriminate.
Defined.

Lemma lookup_package_qualified_witness :
  @lookup_package Example.world Example.databases "extra/bash" = Ok ["bash"] ∧
  @lookup_package Example.world Example.databases "testing/bash"
    = Raise (ValueError "database testing not found").
Proof.
  split.
  - exact (@lookup_package_qualified Example.world Example.databases
             "extra" "bash" eq_refl eq_refl eq_refl).
  - exact (@lookup_package_qualified Example.world Example.databases
             "testing" "bash" eq_refl eq_refl eq_refl).
Defined.

Lemma lookup_package_bad_name_witness :
  @lookup_package Example.world Example.databases "core/extra/bash"
  = Raise (ValueError "bad package name core/extra/bash").
Proof.
  apply (@lookup_package_bad_name Example.world Example.databases
           "core" "extra" "bash"). reflexivity.
Defined.

Lemma install_refreshes_first_witness :
  let self := Example.builder [] in
  calls (install self ["vim"] false false false (Example.state ∅)).2 =
    [pacman_command self ["--sync"; "--refresh"];
     pacman_command self ["--sync"; "--needed"; "vim"]] ∧
  calls (@install Example.failing_world self ["vim"] true false true
           (Example.state ∅)).2 =
    [pacman_command self ["--sync"; "--refresh"]].
Proof.
  intros self. split.
  - destruct (@install_refreshes_first Example.world self ["vim"] false false
                false (Example.state ∅)) as [Hcalls _]; [discriminate|].
    etrans; [exact Hcalls | by vm_compute].
  - destruct (@install_refreshes_first Example.failing_world self ["vim"] true
                false true (Example.state ∅)) as [Hcalls _]; [discriminate|].
    etrans; [exact Hcalls | by vm_compute].
Defined.

Lemma key_tool_disabled_witness :
  init_keyring Example.unsigned_builder (Example.state ∅)
    = (Returns tt, Example.state ∅) ∧
  lsign_key Example.unsigned_builder "0xDEADBEEF" (Example.state ∅)
    = (Raise (RuntimeError "GPG check disabled"), Example.state ∅).
Proof.
  destruct (@key_tool_disabled Example.world Example.unsigned_builder
              (Example.state ∅) eq_refl)
    as (_ & Hlsign & _ & _ & _ & Hinit & _).
  split; [exact Hinit | apply Hlsign].
Defined.

Lemma init_keyring_mirrorlist_unbound_witness :
  (init_keyring (Example.builder [])
     (set_repos [Example.mirrorlist_repo] (Example.state ∅))).1
  = Faults (UnboundLocalError "keypath").
Proof.
  apply (@init_keyring_mirrorlist_unbound Example.world (Example.builder [])
           (set_repos [Example.mirrorlist_repo] (Example.state ∅))
           [] [] Example.mirrorlist_repo);
    try reflexivity; [constructor | discriminate].
Defined.



Lemma add_trust_keyring_pkg_download_first_witness :
  let self := Example.builder [] in
  let st1 := add_call (pacman_command self ["--sync"; "--refresh"]) (Example.state ∅) in
  @add_trust_keyring_pkg Example.failing_world self Example.databases
    ["archlinux-keyring"] (Example.state ∅)
  = (Raise (OSError "pacman failed with 1"), st1) ∧
  fs st1 = ∅ ∧
  ∃ new, calls st1 = [] ++ new ∧
         Forall (λ cmd, ∃ args, cmd = pacman_command self args) new.
Proof.
  intros self st1.
  apply (@add_trust_keyring_pkg_download_first Example.failing_world self
           Example.databases ["archlinux-keyring"] (Example.state ∅) st1);
    [reflexivity | discriminate | reflexivity].
Defined.

Lemma pacman_init_result_witness :
  let self := Example.builder [Example.core_decl] in
  let st' := (pacman_init self (Example.state ∅)).2 in
  caches st' = ["/work/packages"; "/work/rootfs/var/cache/pacman/pkg"] ∧
  StronglySorted priority_le (repos st') ∧
  (∃ decls, config_repo self = Some decls ∧ length (repos st') = length decls) ∧
  fs st' !! config_path self =
    Some (File (String.concat "" (config_lines self st')) 420 0 0) ∧
  calls st' = [].
Proof.
  intros self st'.
  assert (Hrun : pacman_init self (Example.state ∅) = (Ok tt, st'))
    by (subst self st'; vm_compute; reflexivity).
  destruct (@pacman_init_result Example.world self (Example.state ∅) st' Hrun)
    as (Hcaches & Hsorted & Hlen & Hconf & Hcalls).
  split; [etrans; [exact Hcaches | by vm_compute]|].
  split; [exact Hsorted|]. split; [exact Hlen|].
  split; [exact Hconf | exact Hcalls].
Defined.


Lemma init_keyring_once_witness :
  let self := Example.builder [] in
  let run := @init_keyring Example.failing_world self (Example.state ∅) in
  fs run.2 = ∅ ∧
  calls run.2 = [pacman_key_command self ["--init"]] ∧
  ∃ msg, run.1 = Raises (OSError msg).
Proof.
  intros self run.
  destruct (@init_keyring_once Example.failing_world self (Example.state ∅))
    as [Hfs Hrun].
  split; [exact Hfs|].
  change (fs (Example.state ∅) !! trustdb_path self) with (@None node) in Hrun.
  change (gpgcheck self) with true in Hrun.
  destruct Hrun as (rest & Hcalls & Hfail).
  destruct Hfail as [-> Hraise]; [discriminate|].
  split; [exact Hcalls | exact Hraise].
Defined.
